(** * libfdx/yamldecode.py: the FDX frame synchronizer and frame decoder

    A shallow embedding of [src/libfdx/yamldecode.py] and the properties of
    its length check ([checklength]), fixed-width integer decoder
    ([intdecoder]), frame decoder ([FDXProcess.decode_frame]) and frame
    synchronizer ([FDXProcess.lineprotocol]).

    The module is read under Python 3: [bytes] and [str] are distinct types,
    [/] on two ints is true division, [hexlify] returns [bytes] and
    [bytes.hex()] exists.  Python values that the code handles dynamically
    are values of [pyval]; an exception is a value of [pyexc]; a function
    that can raise returns a [result]. *)

From Stdlib Require Import ZArith QArith Qcanon List String Ascii DecimalString Lia.
From Stdlib.Strings Require Import Byte.
From stdpp Require Import base option list gmap strings.

Local Open Scope Z_scope.
Set Warnings "-register-all".

(** Bytes are [Byte.byte]; they are compared and used as dictionary keys. *)
#[global] Instance byte_eq_decision : EqDecision byte := Byte.byte_eq_dec.
#[global] Instance byte_countable : Countable byte :=
  inj_countable Byte.to_N Byte.of_N Byte.of_to_N.

(** ** Python values, exceptions and results *)

Module Py.

(** The values that occur in the module.  A float is idealised as the
    exact rational it stands for; a function, class or module object is
    known by its name only. *)
Inductive pyval : Type :=
| VNone
| VBool (b : bool)
| VInt (z : Z)
| VFloat (q : Q)
| VStr (s : string)
| VBytes (b : list byte)
| VTuple (l : list pyval)
| VList (l : list pyval)
| VObj (name : string).

(** A text built by [fmt % args], or a plain value.  Diagnostic texts
    (exception messages, printed and logged lines, the junk report) are
    kept as the format and its arguments. *)
Inductive item : Type :=
| IText (fmt : string) (args : list pyval)
| IVal (v : pyval).

Inductive pyexc : Type :=
| NameError (name : string)
| TypeError
| ValueError
| IndexError
| ZeroDivisionError
| AssertionError
| DataError (msg : item)
| InterpretError          (* bitstring.InterpretError *)
| CreationError.          (* bitstring.CreationError *)

Inductive result (A : Type) : Type :=
| Ok (a : A)
| Raise (e : pyexc).
Arguments Ok {A} a.
Arguments Raise {A} e.

#[global] Instance result_ret : MRet result := fun A a => Ok a.
#[global] Instance result_bind : MBind result := fun A B f m =>
  match m with
  | Ok a => f a
  | Raise e => Raise e
  end.

(** [assert c] *)
Definition py_assert (c : bool) : result unit :=
  if c then Ok tt else Raise AssertionError.

(** What the program does besides returning: [print], [logging.warning]
    and, in a generator, [yield]. *)
Inductive event : Type :=
| EPrint (args : list item)
| EWarning (msg : item)
| EYield (v : item).

(** A computation with effects: the events so far and how it ended. *)
Definition io (A : Type) : Type := list event * result A.

#[global] Instance io_ret : MRet io := fun A a => ([], Ok a).
#[global] Instance io_bind : MBind io := fun A B f m =>
  match m with
  | (t, Ok a) => let '(t', r) := f a in (t ++ t', r)
  | (t, Raise e) => (t, Raise e)
  end.

Definition emit (e : event) : io unit := ([e], Ok tt).
Definition pure {A} (a : A) : io A := ([], Ok a).
Definition lift {A} (r : result A) : io A := ([], r).

(** *** Numbers *)

(** bool is a subclass of int *)
Definition as_int (v : pyval) : option Z :=
  match v with
  | VBool b => Some (if b then 1 else 0)
  | VInt z => Some z
  | _ => None
  end.

Definition as_num (v : pyval) : option Q :=
  match v with
  | VFloat q => Some q
  | _ => inject_Z <$> as_int v
  end.

(** [a / b] on ints (true division) *)
Definition int_truediv (a b : Z) : result pyval :=
  if b =? 0 then Raise ZeroDivisionError
  else Ok (VFloat (Qred (Qmake (a * Z.sgn b) (Z.to_pos (Z.abs b))))).

(** [a + b] *)
Definition py_add (a b : pyval) : result pyval :=
  match as_int a, as_int b with
  | Some x, Some y => Ok (VInt (x + y))
  | _, _ =>
    match as_num a, as_num b with
    | Some x, Some y => Ok (VFloat (Qred (x + y)))
    | _, _ =>
      match a, b with
      | VStr s, VStr t => Ok (VStr (s ++ t))
      | VBytes s, VBytes t => Ok (VBytes (s ++ t))
      | VList s, VList t => Ok (VList (s ++ t))
      | VTuple s, VTuple t => Ok (VTuple (s ++ t))
      | _, _ => Raise TypeError
      end
    end
  end.

Definition bytes_eqb (s t : list byte) : bool :=
  bool_decide (s = t).

(** [a == b]; never raises on these values *)
Fixpoint py_eqb (a b : pyval) : bool :=
  match as_num a, as_num b with
  | Some x, Some y => Qeq_bool x y
  | _, _ =>
    match a, b with
    | VNone, VNone => true
    | VStr s, VStr t => String.eqb s t
    | VBytes s, VBytes t => bytes_eqb s t
    | VObj s, VObj t => String.eqb s t
    | VTuple l, VTuple m | VList l, VList m =>
      (fix go (l m : list pyval) : bool :=
         match l, m with
         | [], [] => true
         | x :: l', y :: m' => py_eqb x y && go l' m'
         | _, _ => false
         end) l m
    | _, _ => false
    end
  end.

(** [n < b], [n >= b] and [a > n] for an int [n]: an order between a
    number and anything but a number is a TypeError *)
Definition int_lt (n : Z) (b : pyval) : result bool :=
  match as_num b with
  | Some y => Ok (negb (Qle_bool y (inject_Z n)))
  | None => Raise TypeError
  end.

Definition int_ge (n : Z) (b : pyval) : result bool :=
  match as_num b with
  | Some y => Ok (Qle_bool y (inject_Z n))
  | None => Raise TypeError
  end.

Definition py_gt_int (a : pyval) (n : Z) : result bool :=
  match as_num a with
  | Some x => Ok (negb (Qle_bool x (inject_Z n)))
  | None => Raise TypeError
  end.

(** *** Sequences *)

(** a slice bound: None, or an object with [__index__] *)
Definition as_bound (v : pyval) : result (option Z) :=
  match v with
  | VNone => Ok None
  | _ => match as_int v with
         | Some z => Ok (Some z)
         | None => Raise TypeError
         end
  end.

Definition clamp_index (len i : Z) : Z :=
  if i <? 0 then Z.max 0 (i + len) else Z.min i len.

(** [l[lo:hi]] *)
Definition slice {A} (l : list A) (lo hi : option Z) : list A :=
  let len := Z.of_nat (length l) in
  let a := from_option (clamp_index len) 0 lo in
  let b := from_option (clamp_index len) len hi in
  take (Z.to_nat (b - a)) (drop (Z.to_nat a) l).

(** [l[lo:hi]] with the bounds still Python values *)
Definition py_slice {A} (l : list A) (lo hi : pyval) : result (list A) :=
  a ← as_bound lo; b ← as_bound hi; Ok (slice l a b).

(** [l[i]] for an int [i] *)
Definition index {A} (l : list A) (i : Z) : result A :=
  let len := Z.of_nat (length l) in
  let j := if i <? 0 then i + len else i in
  if j <? 0 then Raise IndexError
  else match l !! Z.to_nat j with
       | Some x => Ok x
       | None => Raise IndexError
       end.

Definition byte_val (b : byte) : Z := Z.of_N (Byte.to_N b).

Definition chars (s : string) : list ascii := list_ascii_of_string s.

(** [c[i]]: bytes, str, list and tuple are subscriptable by an int; the
    other values, among them the type [bytes] and the functions and
    classes of the module, are not *)
Definition py_getitem (c i : pyval) : result pyval :=
  match c with
  | VBytes b =>
    match as_int i with
    | Some z => x ← index b z; Ok (VInt (byte_val x))
    | None => Raise TypeError
    end
  | VStr s =>
    match as_int i with
    | Some z => x ← index (chars s) z; Ok (VStr (String x EmptyString))
    | None => Raise TypeError
    end
  | VList l | VTuple l =>
    match as_int i with
    | Some z => index l z
    | None => Raise TypeError
    end
  | _ => Raise TypeError
  end.

(** [iter(v)], run to the end *)
Definition py_iter (v : pyval) : result (list pyval) :=
  match v with
  | VList l | VTuple l => Ok l
  | VStr s => Ok ((fun c => VStr (String c EmptyString)) <$> chars s)
  | VBytes b => Ok ((fun x => VInt (byte_val x)) <$> b)
  | _ => Raise TypeError
  end.

(** [a, b = v] *)
Definition unpack2 (v : pyval) : result (pyval * pyval) :=
  l ← py_iter v;
  match l with
  | [a; b] => Ok (a, b)
  | _ => Raise ValueError
  end.

(** first position of [sub] in [l] at or after position [i], or -1 *)
Fixpoint find_from {A} `{EqDecision A} (sub l : list A) (i : Z) : Z :=
  if bool_decide (take (length sub) l = sub) then i
  else match l with
       | [] => -1
       | _ :: l' => find_from sub l' (i + 1)
       end.

(** [buf.find(sub)] on bytes: [sub] is a bytes-like object or an int in
    range(256) *)
Definition bytes_find (buf : list byte) (sub : pyval) : result Z :=
  match sub with
  | VBytes s => Ok (find_from s buf 0)
  | _ =>
    match as_int sub with
    | Some z =>
      match Byte.of_N (Z.to_N z) with
      | Some x => if z <? 0 then Raise ValueError else Ok (find_from [x] buf 0)
      | None => Raise ValueError
      end
    | None => Raise TypeError
    end
  end.

(** *** Hexadecimal text *)

Definition hexdigit (n : N) : ascii :=
  match n with
  | 0 => "0" | 1 => "1" | 2 => "2" | 3 => "3" | 4 => "4" | 5 => "5"
  | 6 => "6" | 7 => "7" | 8 => "8" | 9 => "9" | 10 => "a" | 11 => "b"
  | 12 => "c" | 13 => "d" | 14 => "e" | _ => "f"
  end%N%char.

Definition hex_of_byte (b : byte) : list ascii :=
  let n := Byte.to_N b in [hexdigit (n / 16); hexdigit (n mod 16)]%N.

(** [b.hex()]: a str *)
Definition bytes_hex (b : list byte) : string :=
  string_of_list_ascii (b ≫= hex_of_byte).

(** [binascii.hexlify(b)]: bytes *)
Definition hexlify (b : list byte) : list byte :=
  byte_of_ascii <$> (b ≫= hex_of_byte).

(** *** Names *)

(** The names of the [builtins] module. *)
Definition builtin_names : list string :=
  [ "abs"; "aiter"; "all"; "anext"; "any"; "ascii"; "bin"; "bool";
    "breakpoint"; "bytearray"; "bytes"; "callable"; "chr"; "classmethod";
    "compile"; "complex"; "delattr"; "dict"; "dir"; "divmod"; "enumerate";
    "eval"; "exec"; "filter"; "float"; "format"; "frozenset"; "getattr";
    "globals"; "hasattr"; "hash"; "help"; "hex"; "id"; "input"; "int";
    "isinstance"; "issubclass"; "iter"; "len"; "list"; "locals"; "map";
    "max"; "memoryview"; "min"; "next"; "object"; "oct"; "open"; "ord";
    "pow"; "print"; "property"; "range"; "repr"; "reversed"; "round";
    "set"; "setattr"; "slice"; "sorted"; "staticmethod"; "str"; "sum";
    "super"; "tuple"; "type"; "vars"; "zip"; "__import__";
    "copyright"; "credits"; "exit"; "license"; "quit";
    "Ellipsis"; "NotImplemented"; "__debug__"; "__build_class__";
    "BaseException"; "BaseExceptionGroup"; "Exception"; "ExceptionGroup";
    "GeneratorExit"; "KeyboardInterrupt"; "SystemExit";
    "ArithmeticError"; "AssertionError"; "AttributeError"; "BlockingIOError";
    "BrokenPipeError"; "BufferError"; "ChildProcessError";
    "ConnectionAbortedError"; "ConnectionError"; "ConnectionRefusedError";
    "ConnectionResetError"; "EOFError"; "EnvironmentError";
    "FileExistsError"; "FileNotFoundError"; "FloatingPointError"; "IOError";
    "ImportError"; "IndentationError"; "IndexError"; "InterruptedError";
    "IsADirectoryError"; "KeyError"; "LookupError"; "MemoryError";
    "ModuleNotFoundError"; "NameError"; "NotADirectoryError";
    "NotImplementedError"; "OSError"; "OverflowError"; "PermissionError";
    "ProcessLookupError"; "RecursionError"; "ReferenceError";
    "RuntimeError"; "StopAsyncIteration"; "StopIteration"; "SyntaxError";
    "SystemError"; "TabError"; "TimeoutError"; "TypeError";
    "UnboundLocalError"; "UnicodeDecodeError"; "UnicodeEncodeError";
    "UnicodeError"; "UnicodeTranslateError"; "ValueError";
    "ZeroDivisionError";
    "BytesWarning"; "DeprecationWarning"; "EncodingWarning";
    "FutureWarning"; "ImportWarning"; "PendingDeprecationWarning";
    "ResourceWarning"; "RuntimeWarning"; "SyntaxWarning"; "UnicodeWarning";
    "UserWarning"; "Warning" ]%string.

(** Loading a name that is not local to the function: the module's
    globals first, then the builtins, else NameError. *)
Definition load_global (G : gmap string pyval) (x : string) : result pyval :=
  match G !! x with
  | Some v => Ok v
  | None =>
    if bool_decide (x ∈ builtin_names) then Ok (VObj x)
    else Raise (NameError x)
  end.

End Py.

(** ** The bitstring library: [BitArray]

    A [BitArray] is its sequence of bits, the most significant bit of each
    byte first.  [of_hex] models [BitArray(hex=s)] on strings of hex
    digits, which is what a hex-encoded pdu is; the library's tidying of
    other strings (white space, a 0x prefix) is not modelled, such a string
    is rejected here. *)

Module BitString.
Import Py.

Definition BitArray : Type := list bool.

Definition nibble_of (c : ascii) : option N :=
  let n := N_of_ascii c in
  if ((48 <=? n) && (n <=? 57))%N then Some (n - 48)%N
  else if ((97 <=? n) && (n <=? 102))%N then Some (n - 87)%N
  else if ((65 <=? n) && (n <=? 70))%N then Some (n - 55)%N
  else None.

Definition nibble_bits (n : N) : list bool :=
  [N.testbit n 3; N.testbit n 2; N.testbit n 1; N.testbit n 0].

(** [BitArray(hex=s)] *)
Definition of_hex (s : string) : result BitArray :=
  match mapM nibble_of (chars s) with
  | Some ns => Ok (ns ≫= nibble_bits)
  | None => Raise CreationError
  end.

(** [b.len]: the length in bits *)
Definition len (b : BitArray) : Z := Z.of_nat (length b).

(** the unsigned value of a run of bits, most significant first *)
Definition uint (bs : list bool) : Z :=
  fold_left (fun acc (b : bool) => 2 * acc + (if b then 1 else 0)) bs 0.

(** the bytes of a whole-byte bitstring, in order *)
Fixpoint to_bytes (fuel : nat) (bs : list bool) : list Z :=
  match fuel, bs with
  | S fuel', _ :: _ => uint (take 8 bs) :: to_bytes fuel' (drop 8 bs)
  | _, _ => []
  end.

(** little-endian: the first byte is the least significant *)
Definition le_value (bytes : list Z) : Z :=
  foldr (fun x acc => x + 256 * acc) 0 bytes.

(** [b.uintle]: a whole number of bytes is required; an empty bitstring
    has no integer interpretation *)
Definition uintle (b : BitArray) : result Z :=
  if negb (len b mod 8 =? 0) then Raise InterpretError
  else if len b =? 0 then Raise InterpretError
  else Ok (le_value (to_bytes (length b) b)).

(** [b.intle]: the two's complement reading of [uintle] *)
Definition intle (b : BitArray) : result Z :=
  v ← uintle b;
  Ok (if 2 ^ (len b - 1) <=? v then v - 2 ^ len b else v).

Fixpoint to_nibbles (fuel : nat) (bs : list bool) : list N :=
  match fuel, bs with
  | S fuel', _ :: _ => Z.to_N (uint (take 4 bs)) :: to_nibbles fuel' (drop 4 bs)
  | _, _ => []
  end.

(** [b.hex]: a multiple of four bits is required *)
Definition hex (b : BitArray) : result string :=
  if negb (len b mod 4 =? 0) then Raise InterpretError
  else Ok (string_of_list_ascii (hexdigit <$> to_nibbles (length b) b)).

End BitString.

(** ** The module-level functions of yamldecode.py *)

Import Py BitString.

(** [s[lo:hi]] on a str *)
Definition str_slice (s : string) (lo hi : option Z) : string :=
  string_of_list_ascii (slice (chars s) lo hi).

Definition str_len (s : string) : Z := Z.of_nat (String.length s).

Definition is_not_none (v : pyval) : bool :=
  match v with VNone => false | _ => true end.

(** [speclen is None or isinstance(speclen, int)] *)
Definition none_or_int (v : pyval) : bool :=
  match v with VNone | VInt _ | VBool _ => true | _ => false end.

(** [checklength(pdu, speclen)] *)
Definition checklength (pdu speclen : pyval) : result BitArray :=
  match pdu with
  | VStr pdu =>
    _ ← py_assert (none_or_int speclen);
    _ ← py_assert (str_len pdu mod 2 =? 0);
    _ ← (if is_not_none speclen then
           half ← int_truediv (str_len pdu) 2;
           if negb (py_eqb half speclen) then
             Raise (DataError
                      (IText "mtype=0x%s: Incorrect length %s (got %s) body: %s"
                             [VStr (str_slice pdu None (Some (3 * 2)));
                              speclen; half;
                              VStr (str_slice pdu (Some (3 * 2)) None)]))
           else Ok tt
         else Ok tt);
    of_hex (str_slice pdu (Some (3 * 2)) (Some (-1 * 2)))
  | _ => Raise AssertionError
  end.

(** [range(start, stop, step)] as the list it runs through *)
Definition py_range (start stop step : Z) : result (list Z) :=
  if step =? 0 then Raise ValueError
  else
    let n := if 0 <? step then (stop - start + step - 1) / step
             else (start - stop - step - 1) / (- step) in
    Ok ((fun k => start + Z.of_nat k * step) <$> seq 0 (Z.to_nat n)).

(** a [for] loop without [break]: the body updates the loop's variables *)
Fixpoint py_for {S A} (body : S -> A -> result S) (l : list A) (s : S)
  : result S :=
  match l with
  | [] => Ok s
  | x :: l' => s' ← body s x; py_for body l' s'
  end.

Definition decimal (n : Z) : string :=
  NilZero.string_of_uint (N.to_uint (Z.to_N n)).

Definition zero_pad (w : nat) (d : string) : string :=
  string_of_list_ascii (replicate (w - String.length d) "0"%char) ++ d.

(** ["%0<w>i" % n] *)
Definition format_int (w : nat) (n : Z) : string :=
  if n <? 0 then "-" ++ zero_pad (w - 1) (decimal (- n))
  else zero_pad w (decimal n).

(** [intdecoder(body, width, signed)]; the source's defaults are
    [width=8], [signed=False] *)
Definition intdecoder (body : BitArray) (width : Z) (signed : bool)
  : result (list (string * pyval)) :=
  _ ← py_assert (width mod 8 =? 0);
  _ ← py_assert (bool_decide (width ∈ [8; 16]));
  let fmt := if width =? 16 then format_int 5 else format_int 3 in
  idxs ← py_range 0 (len body) width;
  s ← py_for (fun (s : list string) idx =>
                let value := slice body (Some idx) (Some (idx + width)) in
                n ← (if signed then intle value else uintle value);
                Ok (s ++ [fmt n]))
             idxs [];
  strbody ← hex body;
  Ok [("ints"%string, VStr (String.concat " " s));
      ("strbody"%string, VStr strbody)].

(** ** The names the module binds at top level

    The imports, the two exception classes, the functions and the three
    classes.  Neither [headers] nor [message] is among them: [headers] is
    an attribute of the class [FDXProcess], which a method reaches only
    through [self] or the class. *)

Definition module_names : list string :=
  [ "__name__"; "__doc__"; "__package__"; "__loader__"; "__spec__";
    "__file__"; "__cached__"; "__builtins__";
    "print_function"; "doctest"; "json"; "logging"; "unittest"; "hexlify";
    "datetime"; "Decimal"; "degrees"; "radians"; "isnan"; "pprint"; "argv";
    "stdin"; "stdout"; "stderr"; "sleep"; "time"; "exists"; "LatLon";
    "Latitude"; "Longitude"; "BitArray";
    "DataError"; "FailedAssumptionError"; "_b"; "fahr2celcius";
    "feet2meter"; "checklength"; "intdecoder"; "FDXFrame"; "FDXProcess";
    "FDXProcess_frameTest" ]%string.

Definition module_globals : gmap string pyval :=
  list_to_map ((fun x => (x, VObj x)) <$> module_names).

(** ** class FDXProcess *)

Module FDXProcess.

(** a handler of the registry: from the argument it is called with to
    the (field name, value) pairs *)
Definition handler : Type := pyval -> result (list (string * pyval)).

(** the class attributes *)
Definition handlers : gmap (list byte) handler := ∅.
Definition headerlen : pyval := VList [VTuple [VInt 0x010402; VInt 6]].
Definition headers : pyval :=
  VList [VTuple [VInt 0x010402; VInt 6]; VTuple [VInt 0x010106; VInt 10]].

Definition bytes_len (b : list byte) : Z := Z.of_nat (length b).

(** the str literal "\x81" *)
Definition sentinel_str : string := String (ascii_of_byte x81) EmptyString.

(** *** lineprotocol *)

(** the variables the [for] loop leaves behind *)
Record scan : Type := Scan { frameidx : pyval; framelen : pyval }.

Inductive control : Type := Next | Break.

(** a [for] loop whose body can [continue] ([Next]) or [break] *)
Fixpoint py_for_break {S A} (body : S -> A -> result (control * S))
         (l : list A) (s : S) : result S :=
  match l with
  | [] => Ok s
  | x :: l' =>
    r ← body s x;
    match r with
    | (Next, s') => py_for_break body l' s'
    | (Break, s') => Ok s'
    end
  end.

(** the body of [for framehdr, framelen in headers] *)
Definition scan_header (G : gmap string pyval) (buf : list byte)
           (st : scan) (hdr : pyval) : result (control * scan) :=
  p ← unpack2 hdr;
  let '(framehdr, framelen) := p in
  let st := Scan (frameidx st) framelen in
  pat ← py_add (VStr sentinel_str) framehdr;
  startidx ← bytes_find buf pat;
  if startidx =? -1 then Ok (Next, st)
  else
    need ← (t ← py_add (VInt 4) framelen; py_add t (VInt 1));
    short ← int_lt (bytes_len (slice buf (Some startidx) None)) need;
    if short : bool then Ok (Break, st)
    else
      b ← load_global G "bytes";
      i ← (t ← py_add (VInt startidx) (VInt 1); py_add t framelen);
      x ← py_getitem b i;
      if negb (py_eqb x (VInt 0x81)) then Ok (Next, st)
      else
        let frameidx := startidx in
        let st := Scan (VInt frameidx) framelen in
        c ← py_getitem (VBytes buf) (VInt frameidx);
        _ ← py_assert (py_eqb c framehdr);
        ge ← int_ge (bytes_len (slice buf (Some frameidx) None)) framelen;
        _ ← py_assert ge;
        Ok (Next, st).

(** one turn of [while True], from the chunk that [reader(100)] returned *)
Definition lineprotocol_pass (G : gmap string pyval) (buf chunk : list byte)
  : io (list byte) :=
  let buf := buf ++ chunk in
  _ ← emit (EPrint [IText "buf is: %s" [VBytes (hexlify buf)]]);
  let st := Scan (VBool false) (VInt 0) in
  st ← lift (hs ← load_global G "headers";
             l ← py_iter hs;
             py_for_break (scan_header G buf) l st);
  if is_not_none (frameidx st) then
    c ← lift (py_getitem (VBytes buf) (VInt 0));
    _ ← lift (py_assert (py_eqb c (VInt 0x81)));
    junk ← lift (py_gt_int (frameidx st) 1);
    _ ← (if junk : bool then
           j ← lift (py_slice buf VNone (frameidx st));
           emit (EYield (IText "junk: %s" [VBytes j]))
         else pure tt);
    f ← lift (lo ← py_add (frameidx st) (VInt 1);
              py_slice buf lo (framelen st));
    _ ← emit (EYield (IVal (VTuple [VStr "frame"; VBytes f])));
    lift (py_slice buf (frameidx st) VNone)
  else pure buf.

(** how far the generator has got: alive with its buffer, or ended by an
    exception *)
Inductive outcome : Type :=
| Running (buf : list byte)
| Raised (e : pyexc).

(** the byte source: the chunks that successive calls of [reader(100)]
    return, then nothing *)
Definition read (reader : list (list byte)) : list byte * list (list byte) :=
  match reader with
  | c :: r => (c, r)
  | [] => ([], [])
  end.

(** [fuel] turns of the [while True] loop *)
Fixpoint lineprotocol_loop (G : gmap string pyval) (fuel : nat)
         (reader : list (list byte)) (buf : list byte)
  : list event * outcome :=
  match fuel with
  | O => ([], Running buf)
  | S fuel' =>
    let '(chunk, reader') := read reader in
    match lineprotocol_pass G buf chunk with
    | (t, Ok buf') =>
      let '(t', o) := lineprotocol_loop G fuel' reader' buf' in (t ++ t', o)
    | (t, Raise e) => (t, Raised e)
    end
  end.

(** [lineprotocol(reader)], pulled for [fuel] turns of its loop *)
Definition lineprotocol (G : gmap string pyval) (reader : list (list byte))
           (fuel : nat) : list event * outcome :=
  lineprotocol_loop G fuel reader [].

(** what the generator handed to its consumer *)
Definition yields (t : list event) : list item :=
  t ≫= fun e => match e with EYield v => [v] | _ => [] end.

(** *** decode_frame *)

(** the inner [fmt(msg)]: [frame.hex()], whatever [msg] is *)
Definition fmt (frame : list byte) (msg : pyval) : pyval :=
  VStr (bytes_hex frame).

(** [dict(keys)]: a later pair overrides an earlier one *)
Definition py_dict (keys : list (string * pyval)) : gmap string pyval :=
  list_to_map (reverse keys).

(** [decode_frame(frame)] with the registry [handlers]; [None] is the
    return value None *)
Definition decode_frame (G : gmap string pyval)
           (handlers : gmap (list byte) handler) (frame : pyval)
  : io (option (gmap string pyval)) :=
  match frame with
  | VBytes fr =>
    if bytes_len fr <? 4 then
      lift (Raise (DataError
                     (IText "short message <4 bytes: %s" [fmt fr frame])))
    else
      let mtype := hexlify (slice fr None (Some 3)) in
      let body := slice fr (Some 3) None in
      _ ← emit (EPrint [IVal (fmt fr frame); IVal (fmt fr (VBytes mtype));
                        IVal (VInt (bytes_len fr));
                        IVal (fmt fr (VBytes body))]);
      match handlers !! mtype with
      | None =>
        _ ← emit (EWarning (IText "No handler for %i byte 0x%s"
                                  [VInt (bytes_len fr); VBytes mtype]));
        pure None
      | Some handler =>
        message ← lift (load_global G "message");
        keys ← lift (handler message);
        _ ← lift (py_assert (0 <? Z.of_nat (length keys)));
        pure (Some (py_dict keys))
      end
  | _ => lift (Raise AssertionError)
  end.

End FDXProcess.

(** ** Notions the properties are stated with *)

Import FDXProcess.

(** a text of hex digits, as [hexlify] or base-16 encoding produces *)
Definition hex_encoded (s : string) : Prop :=
  forallb (fun c => bool_decide (is_Some (nibble_of c))) (chars s) = true.

(** the bits a text of hex digits stands for: four per digit *)
Definition hex_bits (s : string) : BitArray :=
  ((fun c => default 0%N (nibble_of c)) <$> chars s) ≫= nibble_bits.

(** a hex-encoded pdu without its first three bytes and its last byte *)
Definition stripped (pdu : string) : string :=
  string_of_list_ascii (drop 6 (take (String.length pdu - 2) (chars pdu))).

(** the number of bytes a hex text encodes *)
Definition byte_count (s : string) : Z := str_len s / 2.

(** the [k]-th window of [w] bits of a body, and the successive windows
    that cover it *)
Definition window (w : nat) (body : BitArray) (k : nat) : BitArray :=
  take w (drop (k * w) body).

Definition windows (w : nat) (body : BitArray) : list BitArray :=
  window w body <$> seq 0 (Nat.div (length body + w - 1) w).

(** the little-endian readings of a window of whole bytes *)
Definition uintle_val (b : BitArray) : Z := le_value (to_bytes (length b) b).

Definition intle_val (b : BitArray) : Z :=
  let v := uintle_val b in
  if 2 ^ (len b - 1) <=? v then v - 2 ^ len b else v.

(** the text [intdecoder] renders a window as *)
Definition render (width : Z) (signed : bool) (win : BitArray) : string :=
  (if width =? 16 then format_int 5 else format_int 3)
    (if signed then intle_val win else uintle_val win).

(** The bytes an emitted value accounts for: a junk report stands for its
    bytes, a frame for its bytes between the two sentinels that were
    stripped from it. *)
Definition item_bytes (v : item) : list byte :=
  match v with
  | IText _ [VBytes junk] => junk
  | IVal (VTuple [VStr _; VBytes frame]) => [x81] ++ frame ++ [x81]
  | _ => []
  end.

Definition reassemble (vs : list item) : list byte := vs ≫= item_bytes.

(** the frames of the module's own tests, and streams around them *)
Definition gpstime_frame : list byte :=
  [x24; x07; x23; x0f; x1b; x17; x11; x08; x18; x00; x02; x81].
Definition gps_nofix_frame : list byte :=
  [x20; x08; x28; x00; x00; x00; x00; x00; x00; x10; x00; x10; x81].

(** a frame of the first registered header, 0x010402 with a 6-byte body,
    between its sentinels *)
Definition wire_frame : list byte :=
  [x81; x01; x04; x02; x0a; x0b; x0c; x0d; x0e; x0f; x81].
(** the same header followed by a body that no sentinel closes *)
Definition false_start : list byte :=
  [x81; x01; x04; x02; x0a; x0b; x0c; x0d; x0e; x0f; x00].

(** the pass of the loop's trace when it ends at the [for] statement *)
Definition printed (buf : list byte) : list event :=
  [EPrint [IText "buf is: %s" [VBytes (hexlify buf)]]].

(** what [decode_frame] prints for a frame of four bytes or more *)
Definition frame_line (fr : list byte) : event :=
  EPrint [IVal (VStr (bytes_hex fr)); IVal (VStr (bytes_hex fr));
          IVal (VInt (bytes_len fr)); IVal (VStr (bytes_hex fr))].

(** a registry with one handler, for the type of the module's GPS time
    test frame *)
Definition gpstime_handler : handler :=
  fun _ => Ok [("mdesc"%string, VStr "gpstime")].
Definition one_handler : gmap (list byte) handler :=
  {[ hexlify (take 3 gpstime_frame) := gpstime_handler ]}.

(** the only value a pass of the loop can hand out when no header was
    examined: a frame report without a single byte *)
Definition empty_frame : item := IVal (VTuple [VStr "frame"; VBytes []]).

(** the module's GPS time test frame as a hex-encoded pdu, a pdu too short
    to have a body, the five bytes of a course and speed body, and the
    four bits of [BitArray(hex='a')] *)
Definition gpstime_pdu : string := "2407230f1b17110818000281".
Definition short_pdu : string := "2407".
Definition cogsog_body : BitArray := hex_bits "0c01667e15".
Definition half_byte : BitArray := hex_bits "a".

(** ** The test helper [_b] and what it raises *)

(** the exceptions of [_b]: the ones above and [binascii.Error], a
    ValueError of its own class *)
Inductive pyexc_more : Type :=
| Core (e : pyexc)
| BinasciiError.

Inductive returned (A : Type) : Type :=
| Returns (a : A)
| Raises (e : pyexc_more).
Arguments Returns {A} a.
Arguments Raises {A} e.

(** [s.replace(" ", "")] on a str *)
Definition remove_spaces (s : string) : string :=
  string_of_list_ascii
    (filter (fun c => c <> " "%char) (chars s)).

(** the bytes that pairs of hex digit values stand for, most significant
    digit first; nothing for an odd number of digits *)
Fixpoint unhex_pairs (ns : list N) : option (list byte) :=
  match ns with
  | [] => Some []
  | hi :: lo :: rest =>
    match Byte.of_N (hi * 16 + lo), unhex_pairs rest with
    | Some b, Some bs => Some (b :: bs)
    | _, _ => None
    end
  | [_] => None
  end.

(** [binascii.unhexlify(s)] on a str: the str must be ASCII (ValueError
    otherwise), of even length and made of hex digits of either case
    ([binascii.Error] otherwise) *)
Definition unhexlify (s : string) : returned (list byte) :=
  if forallb (fun c => (N_of_ascii c <? 128)%N) (chars s) then
    if Nat.even (String.length s) then
      match mapM nibble_of (chars s) with
      | Some ns =>
        match unhex_pairs ns with
        | Some bs => Returns bs
        | None => Raises BinasciiError
        end
      | None => Raises BinasciiError
      end
    else Raises BinasciiError
  else Raises (Core ValueError).

(** [_b(s)] for a str [s], which is what every call in the module
    passes *)
Definition _b (s : string) : returned (list byte) :=
  unhexlify (remove_spaces s).

(** the hex text of bytes with a space between the bytes, as the module's
    tests write their frames *)
Definition spaced_hex (b : list byte) : string :=
  String.concat " " ((fun x => string_of_list_ascii (hex_of_byte x)) <$> b).

(** a str of the characters 0-9 and a-f *)
Definition lower_hex (s : string) : Prop :=
  forallb (fun c => bool_decide (is_Some (nibble_of c))
                    && bool_decide (hexdigit (default 0%N (nibble_of c)) = c))
          (chars s) = true.

(** ** Bodies seen as bytes *)

(** the eight bits of a byte, most significant first, and the bits of a
    run of bytes *)
Definition byte_bits (x : byte) : list bool :=
  let n := Byte.to_N x in
  [N.testbit n 7; N.testbit n 6; N.testbit n 5; N.testbit n 4;
   N.testbit n 3; N.testbit n 2; N.testbit n 1; N.testbit n 0].

Definition bits_of_bytes (bs : list byte) : BitArray := bs ≫= byte_bits.

(** the two's complement reading of an unsigned value of [w] bits *)
Definition as_signed (w v : Z) : Z :=
  if 2 ^ (w - 1) <=? v then v - 2 ^ w else v.

(** the value of one byte, read signed or not *)
Definition byte_int (signed : bool) (x : byte) : Z :=
  if signed then as_signed 8 (byte_val x) else byte_val x.

(** bytes read in little-endian pairs, signed or not; an odd last byte is
    read on its own *)
Fixpoint le_words (signed : bool) (bs : list byte) : list Z :=
  match bs with
  | lo :: hi :: rest =>
    (let v := byte_val lo + 256 * byte_val hi in
     if signed then as_signed 16 v else v) :: le_words signed rest
  | [lo] => [byte_int signed lo]
  | [] => []
  end.

(** the windows of 16 bits of a run of bytes *)
Fixpoint pair_bits (bs : list byte) : list BitArray :=
  match bs with
  | lo :: hi :: rest => (byte_bits lo ++ byte_bits hi) :: pair_bits rest
  | [lo] => [byte_bits lo]
  | [] => []
  end.

(** ** Registries and globals to try the decoder and the synchronizer on *)

Definition raw_registry : gmap (list byte) handler :=
  {[ take 3 gpstime_frame := gpstime_handler ]}.

(** six bytes that are lower-case hex digits: the shape of
    [hexlify(frame[:3])] *)
Definition hex_key (k : list byte) : bool :=
  Nat.eqb (length k) 6
  && forallb (fun b => let n := Byte.to_N b in
                       ((48 <=? n) && (n <=? 57) || (97 <=? n) && (n <=? 102))%N)
             k.

(** the module's globals with [headers] bound as well: to the class
    attribute, and to an empty list *)
Definition globals_with_headers : gmap string pyval :=
  <["headers" := headers]> module_globals.

(** * Properties *)

(** ** Slices *)

Lemma slice_all {A} (l : list A) : slice l (Some 0) None = l.
Proof.
  unfold slice, clamp_index; simpl.
  rewrite Z.min_l by lia. rewrite Z.sub_0_r, Nat2Z.id.
  by rewrite take_ge.
Qed.

Lemma slice_window {A} (l : list A) (i w : Z) :
  0 <= i -> 0 <= w ->
  slice l (Some i) (Some (i + w)) = take (Z.to_nat w) (drop (Z.to_nat i) l).
Proof.
  intros Hi Hw. unfold slice, clamp_index; simpl.
  destruct (Z.ltb_spec i 0); [lia|]. destruct (Z.ltb_spec (i + w) 0); [lia|].
  destruct (Z.le_gt_cases (Z.of_nat (length l)) i) as [Hge|Hlt].
  - rewrite (drop_ge l (Z.to_nat i)) by lia.
    rewrite (drop_ge l (Z.to_nat (_ `min` _))) by lia.
    by rewrite !take_nil.
  - rewrite (Z.min_l i) by lia.
    destruct (Z.le_gt_cases (i + w) (Z.of_nat (length l))).
    + rewrite Z.min_l by lia. f_equal. lia.
    + rewrite Z.min_r by lia.
      rewrite !take_ge; [done| |]; rewrite length_drop; lia.
Qed.

Lemma slice_prefix {A} (l : list A) (n : Z) :
  0 <= n -> slice l None (Some n) = take (Z.to_nat n) l.
Proof.
  intros Hn. unfold slice, clamp_index; simpl.
  destruct (Z.ltb_spec n 0); [lia|]. rewrite Z.sub_0_r.
  change (Z.to_nat 0) with 0%nat. rewrite drop_0.
  destruct (Z.le_gt_cases n (Z.of_nat (length l))).
  - by rewrite Z.min_l by lia.
  - rewrite Z.min_r by lia. rewrite !take_ge; [done| |]; lia.
Qed.

Lemma slice_suffix {A} (l : list A) (n : Z) :
  0 <= n -> slice l (Some n) None = drop (Z.to_nat n) l.
Proof.
  intros Hn. unfold slice, clamp_index; simpl.
  destruct (Z.ltb_spec n 0); [lia|].
  destruct (Z.le_gt_cases n (Z.of_nat (length l))).
  - rewrite Z.min_l by lia. rewrite take_ge; [done|]. rewrite length_drop. lia.
  - rewrite Z.min_r by lia. rewrite !drop_ge by lia. by rewrite take_nil.
Qed.

Lemma slice_strip {A} (l : list A) :
  slice l (Some 6) (Some (-2)) = drop 6 (take (length l - 2) l).
Proof.
  unfold slice, clamp_index; simpl.
  destruct (Z.le_gt_cases 8 (Z.of_nat (length l))).
  - rewrite Z.min_l, Z.max_r by lia.
    change (Z.to_nat 6) with 6%nat.
    rewrite take_drop_commute. do 2 f_equal. lia.
  - rewrite (drop_ge (take _ _)) by (rewrite length_take; lia).
    replace (Z.to_nat _) with 0%nat by lia. done.
Qed.

Lemma slice_empty {A} (l : list A) : slice l (Some 1) (Some 0) = [].
Proof.
  unfold slice, clamp_index; simpl.
  rewrite (Z.min_l 0) by lia.
  replace (Z.to_nat (0 - _)) with 0%nat by lia. done.
Qed.

(** ** checklength *)

Lemma chars_length (s : string) : length (chars s) = String.length s.
Proof. induction s as [|c s IH]; simpl; [done | by rewrite IH]. Qed.

Lemma str_len_nonneg (s : string) : 0 <= str_len s.
Proof. unfold str_len. lia. Qed.

Lemma str_slice_stripped (pdu : string) :
  str_slice pdu (Some (3 * 2)) (Some (-1 * 2)) = stripped pdu.
Proof.
  unfold str_slice, stripped. change (3 * 2) with 6. change (-1 * 2) with (-2).
  by rewrite slice_strip, chars_length.
Qed.

(** the quotient of an even length by two is that many, as a float *)
Lemma int_truediv_even (n : Z) :
  n mod 2 = 0 -> int_truediv n 2 = Ok (VFloat (inject_Z (n / 2))).
Proof.
  intros Hn. unfold int_truediv. simpl. do 2 f_equal.
  rewrite <- (Qred_identity (inject_Z (n / 2))).
  - apply Qred_complete. unfold Qeq, inject_Z; simpl.
    pose proof (Z.div_mod n 2). lia.
  - simpl. apply Z.gcd_1_r.
Qed.

Lemma py_eqb_float_int (k z : Z) :
  py_eqb (VFloat (inject_Z k)) (VInt z) = (k =? z).
Proof. unfold py_eqb, Qeq_bool; simpl. by rewrite !Z.mul_1_r. Qed.

Lemma mapM_nibble_of (l : list ascii) :
  forallb (fun c => bool_decide (is_Some (nibble_of c))) l = true ->
  mapM nibble_of l = Some ((fun c => default 0%N (nibble_of c)) <$> l).
Proof.
  induction l as [|c l IH]; simpl; [done|].
  intros [Hc Hl]%andb_prop. apply bool_decide_eq_true in Hc as [n Hn].
  rewrite Hn; simpl. by rewrite IH.
Qed.

Lemma of_hex_ok (s : string) : hex_encoded s -> of_hex s = Ok (hex_bits s).
Proof.
  intros Hs. unfold of_hex, hex_bits. by rewrite mapM_nibble_of.
Qed.

Lemma forallb_take_drop {A} (p : A -> bool) (l : list A) (i j : nat) :
  forallb p l = true -> forallb p (drop i (take j l)) = true.
Proof.
  rewrite !forallb_forall. intros Hl x Hx. apply Hl.
  apply list_elem_of_In in Hx. apply list_elem_of_In.
  by apply (subseteq_take j l), (subseteq_drop i (take j l)).
Qed.

Lemma stripped_hex_encoded (pdu : string) :
  hex_encoded pdu -> hex_encoded (stripped pdu).
Proof.
  unfold hex_encoded, stripped, chars.
  rewrite list_ascii_of_string_of_list_ascii. apply forallb_take_drop.
Qed.

Lemma nibble_bits_length (n : N) : length (nibble_bits n) = 4%nat.
Proof. done. Qed.

(** four bits per hex digit *)
Lemma hex_bits_length (s : string) : len (hex_bits s) = 4 * str_len s.
Proof.
  unfold len, hex_bits, str_len. rewrite <- chars_length.
  induction (chars s) as [|c l IH]; [done|].
  rewrite fmap_cons, bind_cons, length_app, nibble_bits_length.
  rewrite length_cons. lia.
Qed.

(** C2, as the code has it: with an integer [speclen], [checklength]
    raises DataError exactly when the number of bytes of the whole pdu,
    header and trailing byte included, differs from [speclen].  The message
    carries the first three bytes in hex, [speclen], that whole byte count
    and the rest of the pdu.  When the two agree the result is the bits of
    the pdu without its first three bytes and its last byte. *)
Theorem checklength_total_length (pdu : string) (speclen : Z) :
  str_len pdu mod 2 = 0 -> hex_encoded pdu ->
  ((exists m, checklength (VStr pdu) (VInt speclen) = Raise (DataError m))
   <-> byte_count pdu <> speclen)
  /\ (byte_count pdu <> speclen ->
      checklength (VStr pdu) (VInt speclen) =
      Raise (DataError
               (IText "mtype=0x%s: Incorrect length %s (got %s) body: %s"
                      [VStr (string_of_list_ascii (take 6 (chars pdu)));
                       VInt speclen;
                       VFloat (inject_Z (byte_count pdu));
                       VStr (string_of_list_ascii (drop 6 (chars pdu)))])))
  /\ (byte_count pdu = speclen ->
      checklength (VStr pdu) (VInt speclen) = Ok (hex_bits (stripped pdu))).
Proof.
  intros Heven Hhex.
  assert (Hcl : checklength (VStr pdu) (VInt speclen) =
    if byte_count pdu =? speclen then Ok (hex_bits (stripped pdu))
    else Raise (DataError
               (IText "mtype=0x%s: Incorrect length %s (got %s) body: %s"
                      [VStr (string_of_list_ascii (take 6 (chars pdu)));
                       VInt speclen;
                       VFloat (inject_Z (byte_count pdu));
                       VStr (string_of_list_ascii (drop 6 (chars pdu)))]))).
  { unfold checklength. cbn -[int_truediv py_eqb of_hex str_slice Z.modulo].
    rewrite Heven. cbn -[int_truediv py_eqb of_hex str_slice].
    rewrite int_truediv_even by done. cbn -[py_eqb of_hex str_slice].
    rewrite py_eqb_float_int. fold (byte_count pdu).
    destruct (Z.eqb_spec (byte_count pdu) speclen).
    - cbn -[of_hex str_slice]. rewrite str_slice_stripped.
      by apply of_hex_ok, stripped_hex_encoded.
    - cbn -[of_hex str_slice]. unfold str_slice. change (3 * 2) with 6.
      rewrite slice_prefix, slice_suffix by lia. done. }
  rewrite Hcl. destruct (Z.eqb_spec (byte_count pdu) speclen) as [Heq|Hne].
  - split; [|split]; [|done..]. split; [intros [m Hm]; discriminate | done].
  - split; [|split]; [|done..]. split; [done | intros _; eauto].
Qed.

Lemma checklength_total_length_witness :
  (str_len gpstime_pdu mod 2 = 0 /\ hex_encoded gpstime_pdu)
  /\ checklength (VStr gpstime_pdu) (VInt 12) =
     Ok (hex_bits (stripped gpstime_pdu)).
Proof.
  split; [split; reflexivity|].
  apply (checklength_total_length gpstime_pdu 12); reflexivity.
Defined.

(** C2 as stated fails: the pdu below has 12 bytes, 8 of them between the
    three header bytes and the trailing byte; with [speclen = 8], the
    length of that body, [checklength] still raises DataError, and reports
    12 as the count it got. *)
Lemma checklength_body_length_counterexample :
  byte_count (stripped gpstime_pdu) = 8
  /\ checklength (VStr gpstime_pdu) (VInt 8) =
     Raise (DataError
              (IText "mtype=0x%s: Incorrect length %s (got %s) body: %s"
                     [VStr "240723"; VInt 8; VFloat (inject_Z 12);
                      VStr "0f1b17110818000281"])).
Proof. split; reflexivity. Qed.

(** C10: without a [speclen] there is no length check: for every
    hex-encoded pdu of even length, whatever its length, [checklength]
    returns the bits of the pdu without its first three bytes and its last
    byte, and raises nothing. *)
Theorem checklength_no_speclen (pdu : string) :
  str_len pdu mod 2 = 0 -> hex_encoded pdu ->
  checklength (VStr pdu) VNone = Ok (hex_bits (stripped pdu)).
Proof.
  intros Heven Hhex. unfold checklength.
  cbn -[of_hex str_slice Z.modulo]. rewrite Heven.
  cbn -[of_hex str_slice]. rewrite str_slice_stripped.
  by apply of_hex_ok, stripped_hex_encoded.
Qed.

Lemma checklength_no_speclen_witness :
  (str_len short_pdu mod 2 = 0 /\ hex_encoded short_pdu)
  /\ checklength (VStr short_pdu) VNone = Ok (hex_bits (stripped short_pdu)).
Proof.
  split; [split; reflexivity|].
  apply (checklength_no_speclen short_pdu); reflexivity.
Defined.

(** ** decode_frame *)

Lemma message_unbound :
  load_global module_globals "message" = Raise (NameError "message").
Proof. vm_compute. reflexivity. Qed.

(** C3: a frame of fewer than four bytes raises DataError, the short
    message error, before anything is printed or looked up; the outcome
    is the same whatever the registry holds. *)
Theorem decode_frame_short (G : gmap string pyval)
        (H : gmap (list byte) handler) (fr : list byte) :
  bytes_len fr < 4 ->
  decode_frame G H (VBytes fr) =
  ([], Raise (DataError
                (IText "short message <4 bytes: %s" [VStr (bytes_hex fr)]))).
Proof.
  intros Hlen. unfold decode_frame.
  destruct (Z.ltb_spec (bytes_len fr) 4); [done | lia].
Qed.

Lemma decode_frame_short_witness :
  bytes_len [x81] < 4
  /\ decode_frame module_globals handlers (VBytes [x81]) =
     ([], Raise (DataError
                   (IText "short message <4 bytes: %s" [VStr "81"]))).
Proof.
  split; [reflexivity|].
  apply (decode_frame_short module_globals handlers [x81]). reflexivity.
Defined.

(** what [decode_frame] does up to the lookup in the registry *)
Lemma decode_frame_lookup (G : gmap string pyval)
      (H : gmap (list byte) handler) (fr : list byte) :
  4 <= bytes_len fr ->
  decode_frame G H (VBytes fr) =
  match H !! hexlify (take 3 fr) with
  | None =>
    ([frame_line fr;
      EWarning (IText "No handler for %i byte 0x%s"
                      [VInt (bytes_len fr); VBytes (hexlify (take 3 fr))])],
     Ok None)
  | Some h =>
    _ ← emit (frame_line fr);
    message ← lift (load_global G "message");
    keys ← lift (h message);
    _ ← lift (py_assert (0 <? Z.of_nat (length keys)));
    pure (Some (py_dict keys))
  end.
Proof.
  intros Hlen. unfold decode_frame.
  destruct (Z.ltb_spec (bytes_len fr) 4); [lia|].
  rewrite slice_prefix by lia. change (Z.to_nat 3) with 3%nat.
  unfold fmt, frame_line. by destruct (H !! _).
Qed.

(** C5: a frame of four bytes or more whose type has no handler in the
    registry raises nothing: the frame is printed, a warning is logged and
    None is returned. *)
Theorem decode_frame_no_handler (G : gmap string pyval)
        (H : gmap (list byte) handler) (fr : list byte) :
  4 <= bytes_len fr ->
  H !! hexlify (take 3 fr) = None ->
  decode_frame G H (VBytes fr) =
  ([frame_line fr;
    EWarning (IText "No handler for %i byte 0x%s"
                    [VInt (bytes_len fr); VBytes (hexlify (take 3 fr))])],
   Ok None).
Proof.
  intros Hlen Hnone. rewrite decode_frame_lookup by done.
  unfold handler in *. by rewrite Hnone.
Qed.

Lemma decode_frame_no_handler_witness :
  (4 <= bytes_len gps_nofix_frame
   /\ handlers !! hexlify (take 3 gps_nofix_frame) = None)
  /\ decode_frame module_globals handlers (VBytes gps_nofix_frame) =
     ([frame_line gps_nofix_frame;
       EWarning (IText "No handler for %i byte 0x%s"
                       [VInt 13; VBytes (hexlify [x20; x08; x28])])],
      Ok None).
Proof.
  split; [split; [vm_compute; discriminate | reflexivity]|].
  apply (decode_frame_no_handler module_globals handlers gps_nofix_frame).
  - vm_compute; discriminate.
  - reflexivity.
Defined.

(** C4 fails on the code: when the registry has a handler for the frame's
    type, [decode_frame] evaluates the handler's argument, the name
    [message], which nothing binds ([body] holds the bytes after the
    header); NameError is raised, the handler is not called and no
    dictionary is returned. *)
Theorem decode_frame_handler_not_called
        (H : gmap (list byte) handler) (fr : list byte) (h : handler) :
  4 <= bytes_len fr ->
  H !! hexlify (take 3 fr) = Some h ->
  decode_frame module_globals H (VBytes fr) =
  ([frame_line fr], Raise (NameError "message")).
Proof.
  intros Hlen Hsome. rewrite decode_frame_lookup by done.
  unfold handler in *. rewrite Hsome.
  cbn -[load_global module_globals]. by rewrite message_unbound.
Qed.

Lemma decode_frame_handler_not_called_witness :
  (4 <= bytes_len gpstime_frame
   /\ one_handler !! hexlify (take 3 gpstime_frame) = Some gpstime_handler)
  /\ decode_frame module_globals one_handler (VBytes gpstime_frame) =
     ([frame_line gpstime_frame], Raise (NameError "message")).
Proof.
  split; [split; [vm_compute; discriminate | reflexivity]|].
  apply (decode_frame_handler_not_called one_handler gpstime_frame
                                         gpstime_handler).
  - vm_compute; discriminate.
  - reflexivity.
Defined.

(** with the module's globals, no registry and no frame make
    [decode_frame] return a dictionary *)
Lemma decode_frame_never_decodes
      (H : gmap (list byte) handler) (frame : pyval) (d : gmap string pyval) :
  (decode_frame module_globals H frame).2 <> Ok (Some d).
Proof.
  destruct frame as [| | | | |fr| | |]; try discriminate.
  destruct (Z.lt_ge_cases (bytes_len fr) 4).
  - unfold decode_frame.
    destruct (Z.ltb_spec (bytes_len fr) 4); [discriminate | lia].
  - rewrite decode_frame_lookup by done. unfold handler in *.
    destruct (H !! hexlify (take 3 fr)) as [h|]; [|discriminate].
    cbn -[load_global module_globals]. by rewrite message_unbound.
Qed.

(** C9 fails on the code: for the no-fix GPS position frame of the
    module's own test, [decode_frame] with the class's registry, which is
    empty, logs that there is no handler and returns None; and whatever
    registry is supplied, it returns no dictionary, so no [mdesc], [lat] or
    [lon]. *)
Theorem decode_frame_gps_nofix :
  decode_frame module_globals handlers (VBytes gps_nofix_frame) =
  ([frame_line gps_nofix_frame;
    EWarning (IText "No handler for %i byte 0x%s"
                    [VInt 13; VBytes (hexlify [x20; x08; x28])])],
   Ok None)
  /\ forall (H : gmap (list byte) handler) (d : gmap string pyval),
      (decode_frame module_globals H (VBytes gps_nofix_frame)).2
      <> Ok (Some d).
Proof.
  split; [reflexivity|]. intros H d. apply decode_frame_never_decodes.
Qed.

(** ** lineprotocol *)

Lemma headers_unbound :
  load_global module_globals "headers" = Raise (NameError "headers").
Proof. vm_compute. reflexivity. Qed.

(** with the module's globals every turn of the loop ends at the [for]
    statement, where the name [headers] is loaded *)
Lemma lineprotocol_pass_module (buf chunk : list byte) :
  lineprotocol_pass module_globals buf chunk =
  (printed (buf ++ chunk), Raise (NameError "headers")).
Proof.
  unfold lineprotocol_pass.
  cbn -[load_global module_globals hexlify]. by rewrite headers_unbound.
Qed.

Lemma lineprotocol_module (reader : list (list byte)) (fuel : nat) :
  lineprotocol module_globals reader (S fuel) =
  (printed (read reader).1, Raised (NameError "headers")).
Proof.
  unfold lineprotocol. cbn [lineprotocol_loop].
  destruct (read reader) as [chunk reader']. cbn [fst].
  by rewrite lineprotocol_pass_module.
Qed.

Lemma lineprotocol_module_yields (reader : list (list byte)) (fuel : nat) :
  yields (lineprotocol module_globals reader fuel).1 = [].
Proof.
  destruct fuel as [|fuel]; [done|]. by rewrite lineprotocol_module.
Qed.

(** whatever the globals bind, the body of the [for] loop ends in an
    exception for every item it is given: an item that does not unpack
    into two raises; otherwise the str ["\x81"] is added to the header,
    which raises unless the header is a str, and then [buf.find] is
    handed a str *)
Lemma scan_header_raises (G : gmap string pyval) (buf : list byte)
      (st : scan) (hdr : pyval) :
  exists e, scan_header G buf st hdr = Raise e.
Proof.
  unfold scan_header. destruct (unpack2 hdr) as [[framehdr framelen]|e].
  - destruct framehdr; simpl; eauto.
  - simpl; eauto.
Qed.

Lemma py_for_break_raises (G : gmap string pyval) (buf : list byte)
      (st : scan) (hdr : pyval) (l : list pyval) :
  exists e, py_for_break (scan_header G buf) (hdr :: l) st = Raise e.
Proof.
  destruct (scan_header_raises G buf st hdr) as [e He].
  exists e. simpl. by rewrite He.
Qed.

(** what follows the [for] loop when it examined no header: [frameidx] is
    still False and [framelen] still 0 *)
Lemma lineprotocol_pass_cases (G : gmap string pyval) (buf chunk : list byte) :
  (exists e, lineprotocol_pass G buf chunk = (printed (buf ++ chunk), Raise e))
  \/ lineprotocol_pass G buf chunk =
     (printed (buf ++ chunk) ++ [EYield empty_frame], Ok (buf ++ chunk)).
Proof.
  unfold lineprotocol_pass. set (b := buf ++ chunk).
  destruct (load_global G "headers") as [hs|e];
    [|left; exists e; reflexivity].
  destruct (py_iter hs) as [[|hdr l]|e] eqn:Hl;
    [| |left; exists e; cbn -[hexlify]; by rewrite Hl].
  - cbn -[hexlify py_getitem py_eqb py_slice]. rewrite Hl.
    cbn -[hexlify py_getitem py_eqb py_slice].
    destruct b as [|c b'] eqn:Hb; [left; eexists; reflexivity|].
    rewrite <- Hb.
    replace (py_getitem (VBytes b) (VInt 0)) with (Ok (VInt (byte_val c)))
      by (by rewrite Hb).
    cbn -[hexlify py_eqb py_slice].
    destruct (py_eqb (VInt (byte_val c)) (VInt 129));
      [|left; eexists; reflexivity].
    right. cbn -[hexlify slice].
    by rewrite slice_empty, slice_all.
  - left. destruct (py_for_break_raises G b (Scan (VBool false) (VInt 0)) hdr l)
      as [e He].
    exists e. cbn -[hexlify py_for_break]. rewrite Hl.
    cbn -[hexlify py_for_break]. by rewrite He.
Qed.

Lemma yields_app (t t' : list event) : yields (t ++ t') = yields t ++ yields t'.
Proof. unfold yields. apply bind_app. Qed.

(** whatever the globals bind, the generator hands out no junk report and
    no frame with a byte in it *)
Lemma lineprotocol_loop_yields (G : gmap string pyval) (fuel : nat) :
  forall (reader : list (list byte)) (buf : list byte),
    Forall (fun v => v = empty_frame)
           (yields (lineprotocol_loop G fuel reader buf).1).
Proof.
  induction fuel as [|fuel IH]; intros reader buf; [constructor|].
  cbn [lineprotocol_loop]. destruct (read reader) as [chunk reader'].
  destruct (lineprotocol_pass_cases G buf chunk) as [[e He]|Hok].
  - rewrite He. constructor.
  - rewrite Hok. specialize (IH reader' (buf ++ chunk)).
    destruct (lineprotocol_loop G fuel reader' (buf ++ chunk)) as [t' o].
    cbn [fst] in *. rewrite !yields_app. apply Forall_app. split; [|done].
    apply Forall_app. split; [constructor|]. by repeat constructor.
Qed.

(** C1 fails on the code: with the module's globals the generator hands
    out nothing for any byte source, so the bytes read are not given back;
    for the stream that is one whole frame of the first registered header,
    what is reassembled from the output is not the stream. *)
Theorem lineprotocol_loses_input :
  (forall (reader : list (list byte)) (fuel : nat),
      reassemble (yields (lineprotocol module_globals reader fuel).1) = [])
  /\ forall fuel : nat,
      reassemble (yields (lineprotocol module_globals [wire_frame] fuel).1)
      <> wire_frame.
Proof.
  split.
  - intros reader fuel. by rewrite lineprotocol_module_yields.
  - intros fuel. by rewrite lineprotocol_module_yields.
Qed.

(** C6 fails on the code: for a stream of two junk bytes followed by a
    whole frame, the first turn of the loop prints the buffer and raises
    NameError; neither a junk report nor a frame is handed out.  Whatever
    the module's globals bind, the only value the generator can hand out
    is a frame report without a byte, never the bytes before a match and
    never a header with its body. *)
Theorem lineprotocol_junk_then_frame :
  (forall fuel : nat,
      lineprotocol module_globals [[x00; x00] ++ wire_frame] (S fuel) =
      (printed ([x00; x00] ++ wire_frame), Raised (NameError "headers")))
  /\ forall (G : gmap string pyval) (reader : list (list byte)) (fuel : nat),
      Forall (fun v => v = empty_frame)
             (yields (lineprotocol G reader fuel).1).
Proof.
  split.
  - intros fuel. by rewrite lineprotocol_module.
  - intros G reader fuel. apply lineprotocol_loop_yields.
Qed.

(** C7 fails on the code: for a stream in which a header is followed by a
    body that no sentinel closes, and then by a whole frame, the
    generator ends with NameError in its first turn: an error reaches the
    consumer and the scan does not go on.  With [headers] bound to the
    class attribute the turn ends with TypeError instead; and whatever the
    globals bind, no header that the loop examines lets it reach its next
    turn. *)
Theorem lineprotocol_false_start :
  (forall fuel : nat,
      lineprotocol module_globals [false_start ++ wire_frame] (S fuel) =
      (printed (false_start ++ wire_frame), Raised (NameError "headers")))
  /\ (forall fuel : nat,
      lineprotocol (<["headers" := headers]> module_globals)
                   [false_start ++ wire_frame] (S fuel) =
      (printed (false_start ++ wire_frame), Raised TypeError))
  /\ forall (G : gmap string pyval) (buf : list byte) (st : scan)
            (hdr : pyval),
      exists e, scan_header G buf st hdr = Raise e.
Proof.
  split; [|split].
  - intros fuel. by rewrite lineprotocol_module.
  - intros fuel. vm_compute. reflexivity.
  - apply scan_header_raises.
Qed.

(** ** intdecoder *)

Lemma py_range_up (stop step : Z) :
  0 < step ->
  py_range 0 stop step =
  Ok ((fun k => 0 + Z.of_nat k * step) <$>
      seq 0 (Z.to_nat ((stop - 0 + step - 1) / step))).
Proof.
  intros Hs. unfold py_range.
  destruct (Z.eqb_spec step 0); [lia|].
  destruct (Z.ltb_spec 0 step); [done | lia].
Qed.

(** the number of windows: the length divided by the width, rounded up *)
Lemma window_count (L w : nat) :
  (0 < w)%nat ->
  Z.to_nat ((Z.of_nat L - 0 + Z.of_nat w - 1) / Z.of_nat w) =
  Nat.div (L + w - 1) w.
Proof.
  intros Hw. rewrite Z.sub_0_r.
  replace (Z.of_nat L + Z.of_nat w - 1) with (Z.of_nat (L + w - 1)) by lia.
  rewrite <- Nat2Z.inj_div. apply Nat2Z.id.
Qed.

Lemma window_count_spec (L w k : nat) :
  (0 < w)%nat ->
  (k < Nat.div (L + w - 1) w)%nat <-> (k * w < L)%nat.
Proof.
  intros Hw.
  pose proof (Nat.div_mod_eq (L + w - 1) w) as Hd.
  pose proof (Nat.mod_upper_bound (L + w - 1) w ltac:(lia)) as Hm.
  split; intros Hk; nia.
Qed.

Lemma window_length (w : nat) (body : BitArray) (k : nat) :
  length (window w body k) = Nat.min w (length body - k * w).
Proof. unfold window. by rewrite length_take, length_drop. Qed.

(** a window of a body of whole bytes is a positive number of whole bytes *)
Lemma window_whole_bytes (w : nat) (body : BitArray) (k : nat) :
  (w = 8 \/ w = 16)%nat -> len body mod 8 = 0 -> (k * w < length body)%nat ->
  len (window w body k) mod 8 = 0 /\ 0 < len (window w body k).
Proof.
  unfold len. intros Hw Hb Hk. rewrite window_length.
  apply Z.mod_divide in Hb as [a Ha]; [|lia].
  split; [|lia].
  apply Z.mod_divide; [lia|].
  destruct (Nat.min_spec w (length body - k * w)) as [[_ ->]|[_ ->]].
  - destruct Hw as [-> | ->]; [by exists 1 | by exists 2].
  - destruct Hw as [-> | ->].
    + exists (a - Z.of_nat k). lia.
    + exists (a - 2 * Z.of_nat k). lia.
Qed.

Lemma uintle_whole_bytes (b : BitArray) :
  len b mod 8 = 0 -> 0 < len b -> uintle b = Ok (uintle_val b).
Proof.
  intros Hm Hp. unfold uintle. rewrite Hm; simpl.
  destruct (Z.eqb_spec (len b) 0); [lia | done].
Qed.

Lemma intle_whole_bytes (b : BitArray) :
  len b mod 8 = 0 -> 0 < len b -> intle b = Ok (intle_val b).
Proof.
  intros Hm Hp. unfold intle. by rewrite uintle_whole_bytes.
Qed.

(** the loop of [intdecoder] over the window numbers [ks] *)
Lemma intdecoder_loop (body : BitArray) (width : Z) (signed : bool)
      (ks : list nat) :
  (width = 8 \/ width = 16) -> len body mod 8 = 0 ->
  Forall (fun k => (k * Z.to_nat width < length body)%nat) ks ->
  forall acc : list string,
    py_for (fun (s : list string) idx =>
              n ← (if signed
                   then intle (slice body (Some idx) (Some (idx + width)))
                   else uintle (slice body (Some idx) (Some (idx + width))));
              Ok (s ++ [(if width =? 16 then format_int 5 else format_int 3) n]))
           ((fun k => 0 + Z.of_nat k * width) <$> ks) acc =
    Ok (acc ++ (render width signed <$> (window (Z.to_nat width) body <$> ks))).
Proof.
  intros Hw Hb Hks. induction Hks as [|k ks Hk _ IH]; intros acc.
  - simpl. by rewrite app_nil_r.
  - rewrite !fmap_cons. cbn [py_for].
    rewrite slice_window by lia.
    replace (Z.to_nat (0 + Z.of_nat k * width)) with (k * Z.to_nat width)%nat
      by lia.
    fold (window (Z.to_nat width) body k).
    destruct (window_whole_bytes (Z.to_nat width) body k) as [Hm Hp];
      [lia|done|done|].
    assert (Hn : (if signed then intle (window (Z.to_nat width) body k)
                  else uintle (window (Z.to_nat width) body k)) =
                 Ok (if signed then intle_val (window (Z.to_nat width) body k)
                     else uintle_val (window (Z.to_nat width) body k))).
    { destruct signed;
        [by apply intle_whole_bytes | by apply uintle_whole_bytes]. }
    rewrite Hn. cbn [mbind result_bind]. rewrite IH.
    unfold render. by rewrite <- app_assoc.
Qed.

(** the windows cover the body, one after the other *)
Lemma windows_concat_take (w : nat) (body : BitArray) (n : nat) :
  concat (window w body <$> seq 0 n) = take (n * w) body.
Proof.
  induction n as [|n IH]; [done|].
  rewrite seq_S, fmap_app, concat_app, IH. simpl.
  rewrite app_nil_r. unfold window.
  rewrite take_take_drop. f_equal. lia.
Qed.

Lemma windows_concat (w : nat) (body : BitArray) :
  (0 < w)%nat -> concat (windows w body) = body.
Proof.
  intros Hw. unfold windows. rewrite windows_concat_take.
  apply take_ge.
  pose proof (Nat.div_mod_eq (length body + w - 1) w) as Hd.
  pose proof (Nat.mod_upper_bound (length body + w - 1) w ltac:(lia)) as Hm.
  nia.
Qed.

Lemma windows_lookup (w : nat) (body : BitArray) (k : nat) (win : BitArray) :
  (0 < w)%nat ->
  windows w body !! k = Some win ->
  win = window w body k /\ (k * w < length body)%nat.
Proof.
  intros Hw. unfold windows. rewrite list_lookup_fmap.
  destruct (seq 0 _ !! k) as [j|] eqn:Hj; [|done].
  apply lookup_seq in Hj as [-> Hlt]. simpl. intros [= <-].
  split; [done|]. by apply window_count_spec in Hlt.
Qed.

Lemma windows_length (w : nat) (body : BitArray) :
  length (windows w body) = Nat.div (length body + w - 1) w.
Proof. unfold windows. by rewrite length_fmap, length_seq. Qed.

(** every window but the last has the full width; the last one of a body
    of whole bytes has the full width or, when the width is 16 and the
    body an odd number of bytes, 8 bits *)
Lemma windows_widths (w : nat) (body : BitArray) (k : nat) (win : BitArray) :
  (w = 8 \/ w = 16)%nat -> len body mod 8 = 0 ->
  windows w body !! k = Some win ->
  length win = w
  \/ (S k = length (windows w body) /\ w = 16%nat /\ length win = 8%nat).
Proof.
  intros Hw Hb Hk.
  apply windows_lookup in Hk as [-> Hlt]; [|lia].
  destruct (window_whole_bytes w body k Hw Hb Hlt) as [Hm Hp].
  unfold len in Hm, Hp. rewrite window_length in *.
  destruct (Nat.le_gt_cases (S k * w) (length body)) as [Hfull|Hlast].
  - left. lia.
  - right. apply Z.mod_divide in Hm as [c Hc]; [|lia].
    assert (Hn : S k = length (windows w body)).
    { rewrite windows_length.
      assert (Hk1 : (k < Nat.div (length body + w - 1) w)%nat)
        by (apply window_count_spec; lia).
      assert (Hk2 : ~ (S k < Nat.div (length body + w - 1) w)%nat)
        by (rewrite window_count_spec; lia).
      lia. }
    split; [done|]. lia.
Qed.

(** C8, as the code has it: a width other than 8 and 16 fails an
    assertion for every body.  With width 8 or 16 and a body of whole
    bytes [intdecoder] succeeds: the body is cut into successive windows
    that cover it without overlap, each of the width but for a last window
    of 8 bits when the width is 16 and the number of bytes is odd; each is
    read little-endian, signed or not, and rendered in 3 or 5 digits; the
    body's hex text is the second field. *)
Theorem intdecoder_windows (body : BitArray) (width : Z) (signed : bool) :
  (width <> 8 -> width <> 16 ->
   intdecoder body width signed = Raise AssertionError)
  /\ (width = 8 \/ width = 16 -> len body mod 8 = 0 ->
      let w := Z.to_nat width in
      exists strbody : string,
        hex body = Ok strbody
        /\ intdecoder body width signed =
           Ok [("ints"%string,
                VStr (String.concat " " (render width signed <$> windows w body)));
               ("strbody"%string, VStr strbody)]
        /\ concat (windows w body) = body
        /\ forall (k : nat) (win : BitArray),
            windows w body !! k = Some win ->
            length win = w
            \/ (S k = length (windows w body)
                /\ w = 16%nat /\ length win = 8%nat)).
Proof.
  split.
  - intros H8 H16. unfold intdecoder.
    destruct (width mod 8 =? 0); [|done]. cbn [py_assert mbind result_bind].
    rewrite bool_decide_eq_false_2; [done|].
    rewrite !elem_of_cons, elem_of_nil. tauto.
  - intros Hw Hb w.
    assert (Hhex : hex body =
                   Ok (string_of_list_ascii
                         (hexdigit <$> to_nibbles (length body) body))).
    { unfold hex.
      replace (len body mod 4) with 0; [done|].
      apply Z.mod_divide in Hb as [a Ha]; [|lia].
      symmetry. apply Z.mod_divide; [lia|]. exists (2 * a). lia. }
    eexists. split; [exact Hhex|]. split; [|split].
    + unfold intdecoder.
      replace (width mod 8 =? 0) with true by (by destruct Hw as [-> | ->]).
      rewrite bool_decide_eq_true_2
        by (rewrite !elem_of_cons; tauto).
      cbn [py_assert mbind result_bind].
      rewrite py_range_up by lia. cbn [mbind result_bind].
      unfold len at 1.
      replace ((Z.of_nat (length body) - 0 + width - 1) / width)
        with ((Z.of_nat (length body) - 0 + Z.of_nat w - 1) / Z.of_nat w)
        by (subst w; by rewrite Z2Nat.id by lia).
      rewrite window_count by lia.
      rewrite intdecoder_loop; [| done | done |].
      * cbn [mbind result_bind]. rewrite Hhex. cbn [mbind result_bind].
        rewrite app_nil_l. done.
      * apply Forall_forall. intros k Hk.
        apply elem_of_seq in Hk.
        apply (window_count_spec (length body) w k); [lia|]. exact (proj2 Hk).
    + apply windows_concat. lia.
    + intros k win Hk. apply (windows_widths w body k win); [lia|done|done].
Qed.

Lemma intdecoder_windows_witness :
  ((16 = 8 \/ 16 = 16) /\ len cogsog_body mod 8 = 0)
  /\ exists strbody : string,
      hex cogsog_body = Ok strbody
      /\ intdecoder cogsog_body 16 false =
         Ok [("ints"%string,
              VStr (String.concat " "
                      (render 16 false <$> windows 16 cogsog_body)));
             ("strbody"%string, VStr strbody)]
      /\ concat (windows 16 cogsog_body) = cogsog_body
      /\ forall (k : nat) (win : BitArray),
          windows 16 cogsog_body !! k = Some win ->
          length win = 16%nat
          \/ (S k = length (windows 16 cogsog_body)
              /\ 16%nat = 16%nat /\ length win = 8%nat).
Proof.
  split; [split; [by right | reflexivity]|].
  apply (intdecoder_windows cogsog_body 16 false).
  - right; reflexivity.
  - reflexivity.
Defined.

(** C8 as stated fails: a BitArray need not be whole bytes.  For the four
    bits of [BitArray(hex='a')] and width 8 the only window has four bits,
    which have no little-endian reading: [intdecoder] raises
    InterpretError. *)
Lemma intdecoder_half_byte_counterexample :
  (8 = 8 \/ 8 = 16)
  /\ intdecoder half_byte 8 false = Raise InterpretError.
Proof. split; [by left | reflexivity]. Qed.

(** and a body of whole bytes need not be whole windows: one byte read
    with width 16 is a single window of 8 bits *)
Example intdecoder_odd_bytes :
  intdecoder (hex_bits "af") 16 false =
  Ok [("ints"%string, VStr "00175"); ("strbody"%string, VStr "af")]
  /\ length <$> windows 16 (hex_bits "af") = [8%nat].
Proof. split; reflexivity. Qed.

(** ** The test helper [_b] *)

Lemma chars_of_list (l : list ascii) : chars (string_of_list_ascii l) = l.
Proof. apply list_ascii_of_string_of_list_ascii. Qed.

Lemma hex_of_byte_nibbles (x : byte) :
  mapM nibble_of (hex_of_byte x) =
  Some [(Byte.to_N x / 16)%N; (Byte.to_N x mod 16)%N].
Proof. by destruct x. Qed.

Lemma hex_of_byte_ascii (x : byte) :
  forallb (fun c => (N_of_ascii c <? 128)%N) (hex_of_byte x) = true.
Proof. by destruct x. Qed.

Lemma byte_of_nibbles (x : byte) :
  Byte.of_N (Byte.to_N x / 16 * 16 + Byte.to_N x mod 16) = Some x.
Proof. by destruct x. Qed.

Lemma chars_app (s t : string) : chars (s ++ t) = chars s ++ chars t.
Proof. induction s as [|c s IH]; simpl; [done | by rewrite IH]. Qed.

Lemma bytes_hex_chars (b : list byte) : chars (bytes_hex b) = b ≫= hex_of_byte.
Proof. apply chars_of_list. Qed.

Lemma unhex_pairs_hex (b : list byte) :
  unhex_pairs (b ≫= fun x => [(Byte.to_N x / 16)%N; (Byte.to_N x mod 16)%N])
  = Some b.
Proof.
  induction b as [|x b IH]; [done|].
  rewrite bind_cons. cbn [app unhex_pairs].
  by rewrite byte_of_nibbles, IH.
Qed.

Lemma mapM_nibble_of_hex (b : list byte) :
  mapM nibble_of (b ≫= hex_of_byte) =
  Some (b ≫= fun x => [(Byte.to_N x / 16)%N; (Byte.to_N x mod 16)%N]).
Proof.
  induction b as [|x b IH]; [done|].
  rewrite !bind_cons. unfold hex_of_byte at 1. cbn [app mapM].
  pose proof (hex_of_byte_nibbles x) as Hx. unfold hex_of_byte in Hx.
  cbn [mapM] in Hx.
  destruct (nibble_of (hexdigit (Byte.to_N x / 16))) as [hi|]; [|done].
  destruct (nibble_of (hexdigit (Byte.to_N x `mod` 16))) as [lo|]; [|done].
  cbn in Hx. injection Hx as -> ->. cbn [mbind option_bind].
  rewrite IH. done.
Qed.

(** [unhexlify] undoes [bytes.hex()] *)
Lemma unhexlify_bytes_hex (b : list byte) : unhexlify (bytes_hex b) = Returns b.
Proof.
  unfold unhexlify. rewrite bytes_hex_chars.
  replace (forallb _ (b ≫= hex_of_byte)) with true; cycle 1.
  { symmetry. induction b as [|x b IH]; [done|].
    rewrite bind_cons, forallb_app, hex_of_byte_ascii. done. }
  replace (Nat.even (String.length (bytes_hex b))) with true; cycle 1.
  { symmetry. rewrite <- chars_length, bytes_hex_chars.
    induction b as [|x b IH]; [done|].
    rewrite bind_cons. exact IH. }
  by rewrite mapM_nibble_of_hex, unhex_pairs_hex.
Qed.

Lemma hex_of_byte_no_space (x : byte) :
  filter (fun c => c <> " "%char) (hex_of_byte x) = hex_of_byte x.
Proof. by destruct x. Qed.

Lemma remove_spaces_bytes_hex (b : list byte) :
  remove_spaces (bytes_hex b) = bytes_hex b.
Proof.
  unfold remove_spaces. rewrite bytes_hex_chars. unfold bytes_hex. f_equal.
  induction b as [|x b IH]; [done|].
  by rewrite bind_cons, filter_app, hex_of_byte_no_space, IH.
Qed.

Lemma remove_spaces_spaced_hex (b : list byte) :
  remove_spaces (spaced_hex b) = bytes_hex b.
Proof.
  unfold remove_spaces, spaced_hex, bytes_hex. f_equal.
  induction b as [|x b IH]; [done|].
  rewrite fmap_cons, bind_cons. cbn [String.concat].
  destruct b as [|y b].
  - change ([] ≫= hex_of_byte) with (@nil ascii).
    cbn [fmap list_fmap]. rewrite chars_of_list, app_nil_r.
    apply hex_of_byte_no_space.
  - rewrite <- IH. rewrite fmap_cons.
    rewrite !chars_app, chars_of_list, !filter_app, hex_of_byte_no_space.
    done.
Qed.

(** X1: [_b] gives back the bytes of a frame from its hex text, written
    without separators as [bytes.hex()] does or with a space between the
    bytes as the module's tests do. *)
Theorem b_round_trip (b : list byte) :
  _b (bytes_hex b) = Returns b /\ _b (spaced_hex b) = Returns b.
Proof.
  unfold _b. rewrite remove_spaces_bytes_hex, remove_spaces_spaced_hex.
  split; apply unhexlify_bytes_hex.
Qed.

Lemma list_pair_ind {A} (P : list A -> Prop) :
  P [] -> (forall x, P [x]) -> (forall x y l, P l -> P (x :: y :: l)) ->
  forall l, P l.
Proof.
  intros H0 H1 H2 l.
  assert (H : P l /\ forall x, P (x :: l)); [|by destruct H].
  induction l as [|y l [IHl IHx]]; [by split|].
  split; [apply IHx | intros x; by apply H2].
Qed.

Lemma nibble_of_ascii (c : ascii) :
  is_Some (nibble_of c) -> (N_of_ascii c <? 128)%N = true.
Proof.
  destruct c as [[] [] [] [] [] [] [] []]; vm_compute; try done;
    intros [? [=]].
Qed.

Lemma nibble_of_bound (c : ascii) (n : N) :
  nibble_of c = Some n -> (n < 16)%N.
Proof.
  destruct c as [[] [] [] [] [] [] [] []]; vm_compute; try done;
    by intros [= <-].
Qed.

Lemma mapM_nibble_of_inv (l : list ascii) (ns : list N) :
  mapM nibble_of l = Some ns ->
  forallb (fun c => bool_decide (is_Some (nibble_of c))) l = true
  /\ Forall (fun n => (n < 16)%N) ns /\ length ns = length l.
Proof.
  revert ns. induction l as [|c l IH]; intros ns.
  - intros [= <-]. by repeat split.
  - cbn [mapM forallb]. destruct (nibble_of c) as [n|] eqn:Hc; [|done].
    cbn [mbind option_bind]. destruct (mapM nibble_of l) as [k|]; [|done].
    intros [= <-]. destruct (IH k eq_refl) as (Hl & Hk & Hlen).
    split; [|split].
    + rewrite Hl. by rewrite bool_decide_eq_true_2 by eauto.
    + constructor; [by eapply nibble_of_bound | done].
    + simpl. by rewrite Hlen.
Qed.

Lemma unhex_pairs_even (ns : list N) :
  Forall (fun n => (n < 16)%N) ns -> Nat.even (length ns) = true ->
  exists b, unhex_pairs ns = Some b.
Proof.
  induction ns as [|x|hi lo ns IH] using list_pair_ind; intros Hns Hev.
  - by exists [].
  - done.
  - apply Forall_cons in Hns as [Hhi Hns]. apply Forall_cons in Hns as [Hlo Hns].
    destruct (IH Hns Hev) as [b Hb]. cbn [unhex_pairs]. rewrite Hb.
    destruct (Byte.of_N (hi * 16 + lo)) as [x|] eqn:Hx; [by eexists|].
    apply Byte.of_N_None_iff in Hx. lia.
Qed.

Lemma unhex_pairs_length (ns : list N) (b : list byte) :
  unhex_pairs ns = Some b -> length ns = (2 * length b)%nat.
Proof.
  revert b. induction ns as [|x|hi lo ns IH] using list_pair_ind; intros b.
  - by intros [= <-].
  - done.
  - cbn [unhex_pairs].
    destruct (Byte.of_N (hi * 16 + lo)) as [x|]; [|done].
    destruct (unhex_pairs ns) as [bs|]; [|done].
    intros [= <-]. simpl. rewrite (IH bs eq_refl). lia.
Qed.

(** X2: [_b] succeeds exactly on the texts that, their spaces removed, are
    an even number of hex digits, and then returns half as many bytes as
    there are digits; a text with a character outside ASCII raises
    ValueError, every other text [binascii.Error]. *)
Theorem b_outcome (s : string) :
  ((exists b, _b s = Returns b)
   <-> hex_encoded (remove_spaces s)
       /\ Nat.even (String.length (remove_spaces s)) = true)
  /\ (forall b, _b s = Returns b ->
      String.length (remove_spaces s) = (2 * length b)%nat)
  /\ (_b s = Raises (Core ValueError)
      <-> forallb (fun c => (N_of_ascii c <? 128)%N)
                  (chars (remove_spaces s)) = false)
  /\ ((exists b, _b s = Returns b) \/ _b s = Raises (Core ValueError)
      \/ _b s = Raises BinasciiError).
Proof.
  unfold _b, unhexlify, hex_encoded. set (t := remove_spaces s).
  destruct (forallb (fun c => (N_of_ascii c <? 128)%N) (chars t)) eqn:Hascii.
  - destruct (Nat.even (String.length t)) eqn:Hev.
    + destruct (mapM nibble_of (chars t)) as [ns|] eqn:Hns.
      * destruct (mapM_nibble_of_inv _ _ Hns) as (Hhex & Hlt & Hlen).
        destruct (unhex_pairs_even ns Hlt) as [b Hb].
        { by rewrite Hlen, chars_length. }
        rewrite Hb. split; [|split; [|split]].
        -- split; [done | intros _; by exists b].
        -- intros b' [= <-]. rewrite <- chars_length, <- Hlen.
           by apply unhex_pairs_length.
        -- split; done.
        -- left. by exists b.
      * split; [|split; [|split]].
        -- split; [by intros [b Hb] | intros [Hhex _]].
           by rewrite mapM_nibble_of in Hns.
        -- done.
        -- split; done.
        -- by right; right.
    + split; [|split; [|split]].
      * split; [by intros [b Hb] | by intros [_ Hev']].
      * done.
      * split; done.
      * by right; right.
  - split; [|split; [|split]].
    + split; [by intros [b Hb] | intros [Hhex _]].
      assert (Ha : forallb (fun c => (N_of_ascii c <? 128)%N) (chars t) = true);
        [|congruence].
      apply forallb_forall. intros c Hc.
      rewrite forallb_forall in Hhex. specialize (Hhex c Hc).
      apply nibble_of_ascii. by apply bool_decide_eq_true in Hhex.
    + done.
    + split; done.
    + by right; left.
Qed.

Lemma hex_of_byte_of_nibbles (hi lo : N) (x : byte) :
  (lo < 16)%N -> Byte.of_N (hi * 16 + lo) = Some x ->
  hex_of_byte x = [hexdigit hi; hexdigit lo].
Proof.
  intros Hlo Hx. apply Byte.to_of_N in Hx. unfold hex_of_byte. rewrite Hx.
  f_equal; [|f_equal]; f_equal.
  - symmetry. apply (N.div_unique _ _ _ lo); lia.
  - symmetry. apply (N.mod_unique _ _ hi); lia.
Qed.

Lemma unhex_pairs_inverse (l : list ascii) :
  forall (ns : list N) (b : list byte),
    mapM nibble_of l = Some ns -> unhex_pairs ns = Some b ->
    forallb (fun c => bool_decide (is_Some (nibble_of c))
                      && bool_decide (hexdigit (default 0%N (nibble_of c)) = c))
            l = true ->
    b ≫= hex_of_byte = l.
Proof.
  induction l as [|c|c1 c2 l IH] using list_pair_ind; intros ns b.
  - by intros [= <-] [= <-].
  - cbn [mapM]. destruct (nibble_of c); [|done]. by intros [= <-].
  - cbn [mapM forallb].
    destruct (nibble_of c1) as [hi|] eqn:H1; [|done].
    destruct (nibble_of c2) as [lo|] eqn:H2; [|done].
    cbn [mbind option_bind]. destruct (mapM nibble_of l) as [ns'|]; [|done].
    intros [= <-]. cbn [unhex_pairs].
    destruct (Byte.of_N (hi * 16 + lo)) as [x|] eqn:Hx; [|done].
    destruct (unhex_pairs ns') as [bs|] eqn:Hbs; [|done].
    intros [= <-]. cbn [default].
    intros [[_ Hc1%bool_decide_eq_true]%andb_prop
            [[_ Hc2%bool_decide_eq_true]%andb_prop Hl]%andb_prop]%andb_prop.
    rewrite bind_cons, (IH ns' bs eq_refl Hbs Hl).
    rewrite (hex_of_byte_of_nibbles hi lo x);
      [| by eapply nibble_of_bound | done].
    cbn in Hc1, Hc2. by rewrite Hc1, Hc2.
Qed.

(** X3: what [_b] returns for a text of lower-case hex digits and spaces
    hexes back to that text without its spaces. *)
Theorem b_hex_inverse (s : string) (b : list byte) :
  _b s = Returns b -> lower_hex (remove_spaces s) ->
  bytes_hex b = remove_spaces s.
Proof.
  unfold _b, unhexlify, lower_hex, bytes_hex.
  destruct (forallb _ (chars (remove_spaces s))); [|done].
  destruct (Nat.even _); [|done].
  destruct (mapM nibble_of (chars (remove_spaces s))) as [ns|] eqn:Hns;
    [|done].
  destruct (unhex_pairs ns) as [bs|] eqn:Hbs; [|done].
  intros [= <-] Hlow.
  rewrite (unhex_pairs_inverse _ ns bs Hns Hbs Hlow).
  apply string_of_list_ascii_of_string.
Qed.

Lemma b_hex_inverse_witness :
  (_b "24 07 23 0f" = Returns [x24; x07; x23; x0f]
   /\ lower_hex (remove_spaces "24 07 23 0f"))
  /\ bytes_hex [x24; x07; x23; x0f] = remove_spaces "24 07 23 0f".
Proof.
  split; [split; reflexivity|].
  apply (b_hex_inverse "24 07 23 0f" [x24; x07; x23; x0f]); reflexivity.
Defined.

(** ** More on checklength *)



(** what [checklength] does once its three assertions hold *)
Lemma checklength_checked (pdu : string) (speclen : pyval) :
  none_or_int speclen = true -> str_len pdu mod 2 = 0 ->
  checklength (VStr pdu) speclen = of_hex (stripped pdu)
  \/ exists m, checklength (VStr pdu) speclen = Raise (DataError m).
Proof.
  intros Hs Hev. unfold checklength.
  rewrite Hs. cbn -[int_truediv py_eqb of_hex str_slice Z.modulo].
  rewrite Hev. cbn -[int_truediv py_eqb of_hex str_slice].
  rewrite int_truediv_even by done.
  destruct (is_not_none speclen).
  - cbn -[py_eqb of_hex str_slice].
    destruct (py_eqb _ speclen); cbn -[of_hex str_slice].
    + left. by rewrite str_slice_stripped.
    + right. by eexists.
  - cbn -[of_hex str_slice]. left. by rewrite str_slice_stripped.
Qed.

(** X4: [checklength] fails an assertion exactly when the pdu is not a
    str, or [speclen] is neither None nor an int, or the pdu has an odd
    number of characters. *)
Theorem checklength_assertions (pdu speclen : pyval) :
  checklength pdu speclen = Raise AssertionError
  <-> (forall s, pdu <> VStr s)
      \/ none_or_int speclen = false
      \/ exists s, pdu = VStr s /\ str_len s mod 2 <> 0.
Proof.
  destruct pdu as [| | | |s| | | |];
    try (split; [intros _; left; intros s; discriminate | done]).
  destruct (none_or_int speclen) eqn:Hs.
  - destruct (Z.eq_dec (str_len s mod 2) 0) as [Hev|Hodd].
    + split.
      * intros Hr.
        destruct (checklength_checked s speclen Hs Hev) as [Hc|[m Hc]];
          [|congruence].
        rewrite Hc in Hr. unfold of_hex in Hr.
        by destruct (mapM nibble_of (chars (stripped s))).
      * intros [Hn|[Hn|(s' & [= <-] & Hn)]]; [by destruct (Hn s)|done..].
    + split; [intros _; right; right; by exists s|intros _].
      unfold checklength. rewrite Hs. cbn -[Z.modulo].
      destruct (Z.eqb_spec (str_len s mod 2) 0); done.
  - split; [intros _; by right; left|intros _].
    unfold checklength. by rewrite Hs.
Qed.

(** a call of [checklength] that returns passed the assertions, and
    returns what [BitArray(hex=...)] makes of the stripped pdu *)
Lemma checklength_returns (pdu : string) (speclen : pyval) (bits : BitArray) :
  checklength (VStr pdu) speclen = Ok bits ->
  str_len pdu mod 2 = 0 /\ of_hex (stripped pdu) = Ok bits.
Proof.
  intros Hr.
  assert (Hs : none_or_int speclen = true).
  { destruct (none_or_int speclen) eqn:Hs; [done|].
    unfold checklength in Hr. by rewrite Hs in Hr. }
  assert (Hev : str_len pdu mod 2 = 0).
  { destruct (Z.eq_dec (str_len pdu mod 2) 0) as [|Hodd]; [done|].
    unfold checklength in Hr. rewrite Hs in Hr. cbn -[Z.modulo] in Hr.
    by destruct (Z.eqb_spec (str_len pdu mod 2) 0). }
  split; [done|].
  destruct (checklength_checked pdu speclen Hs Hev) as [Hc|[m Hc]];
    congruence.
Qed.



Lemma nibble_round (c : ascii) :
  Z.to_N (uint (nibble_bits (default 0%N (nibble_of c)))) =
  default 0%N (nibble_of c).
Proof. by destruct c as [[] [] [] [] [] [] [] []]. Qed.

Lemma to_nibbles_hex_bits (l : list ascii) :
  forall fuel : nat,
    (length l <= fuel)%nat ->
    to_nibbles fuel (((fun c => default 0%N (nibble_of c)) <$> l) ≫= nibble_bits)
    = (fun c => default 0%N (nibble_of c)) <$> l.
Proof.
  induction l as [|c l IH]; intros fuel Hf.
  - by destruct fuel.
  - destruct fuel as [|fuel]; [simpl in Hf; lia|].
    rewrite fmap_cons, bind_cons. unfold nibble_bits at 1.
    cbn [app to_nibbles firstn skipn]. rewrite take_0, drop_0.
    fold (nibble_bits (default 0%N (nibble_of c))).
    rewrite nibble_round, IH; [done | simpl in Hf; lia].
Qed.

(** [hex] gives back a text of lower-case hex digits from its bits *)
Lemma hex_hex_bits (s : string) : lower_hex s -> hex (hex_bits s) = Ok s.
Proof.
  intros Hlow. unfold hex.
  rewrite hex_bits_length, Z.mul_comm, Z.mod_mul by lia. cbn [negb Z.eqb].
  assert (Hn : to_nibbles (length (hex_bits s)) (hex_bits s) =
               (fun c => default 0%N (nibble_of c)) <$> chars s).
  { pose proof (hex_bits_length s) as Hlen. unfold len, str_len in Hlen.
    unfold hex_bits in *.
    apply (to_nibbles_hex_bits (chars s)).
    rewrite chars_length. lia. }
  assert (Hd : hexdigit <$> ((fun c => default 0%N (nibble_of c)) <$> chars s)
               = chars s).
  { unfold lower_hex in Hlow. clear Hn. revert Hlow.
    induction (chars s) as [|c l IH]; [done|].
    cbn [forallb].
    intros [[_ Hc%bool_decide_eq_true]%andb_prop Hl]%andb_prop.
    rewrite !fmap_cons. cbn beta. by rewrite Hc, IH. }
  rewrite Hn, Hd. unfold chars. by rewrite string_of_list_ascii_of_string.
Qed.

Lemma lower_hex_encoded (s : string) : lower_hex s -> hex_encoded s.
Proof.
  unfold lower_hex, hex_encoded. rewrite !forallb_forall.
  intros Hs c Hc. by apply Hs, andb_prop in Hc as [Hc _].
Qed.

Lemma stripped_lower_hex (pdu : string) :
  lower_hex pdu -> lower_hex (stripped pdu).
Proof.
  unfold lower_hex, stripped. rewrite chars_of_list. apply forallb_take_drop.
Qed.

(** X6: the body that [checklength] returns for a pdu of lower-case hex
    digits, as [hexlify] writes them, reads back through [.hex] as the pdu
    without its first six and its last two characters. *)
Theorem checklength_hex_round_trip
        (pdu : string) (speclen : pyval) (bits : BitArray) :
  checklength (VStr pdu) speclen = Ok bits -> lower_hex pdu ->
  hex bits = Ok (stripped pdu).
Proof.
  intros [_ Hr]%checklength_returns Hlow.
  apply stripped_lower_hex in Hlow.
  rewrite of_hex_ok in Hr by by apply lower_hex_encoded.
  injection Hr as <-. by apply hex_hex_bits.
Qed.

Lemma checklength_hex_round_trip_witness :
  (checklength (VStr gpstime_pdu) VNone = Ok (hex_bits (stripped gpstime_pdu))
   /\ lower_hex gpstime_pdu)
  /\ hex (hex_bits (stripped gpstime_pdu)) = Ok (stripped gpstime_pdu).
Proof.
  split; [split; reflexivity|].
  apply (checklength_hex_round_trip gpstime_pdu VNone); reflexivity.
Defined.

(** ** More on intdecoder *)

(** what [intdecoder] returns for a body of whole bytes, in terms of the
    windows *)
Lemma intdecoder_whole_bytes (body : BitArray) (width : Z) (signed : bool) :
  width = 8 \/ width = 16 -> len body mod 8 = 0 ->
  intdecoder body width signed =
  Ok [("ints"%string,
       VStr (String.concat " "
               (render width signed <$> windows (Z.to_nat width) body)));
      ("strbody"%string,
       VStr (string_of_list_ascii
               (hexdigit <$> to_nibbles (length body) body)))].
Proof.
  intros Hw Hb. unfold intdecoder.
  replace (width mod 8 =? 0) with true by (by destruct Hw as [-> | ->]).
  rewrite bool_decide_eq_true_2 by (rewrite !elem_of_cons; tauto).
  cbn [py_assert mbind result_bind].
  rewrite py_range_up by lia. cbn [mbind result_bind].
  unfold len at 1.
  replace ((Z.of_nat (length body) - 0 + width - 1) / width)
    with ((Z.of_nat (length body) - 0 + Z.of_nat (Z.to_nat width) - 1)
          / Z.of_nat (Z.to_nat width))
    by (by rewrite Z2Nat.id by lia).
  rewrite window_count by lia.
  rewrite intdecoder_loop; [| done | done |].
  - cbn [mbind result_bind]. unfold hex.
    replace (len body mod 4) with 0.
    + cbn [negb Z.eqb mbind result_bind]. by rewrite app_nil_l.
    + apply Z.mod_divide in Hb as [a Ha]; [|lia].
      symmetry. apply Z.mod_divide; [lia|]. exists (2 * a). lia.
  - apply Forall_forall. intros k Hk. apply elem_of_seq in Hk.
    apply (window_count_spec (length body) (Z.to_nat width) k); [lia|].
    exact (proj2 Hk).
Qed.

Lemma windows_nil (w : nat) : (0 < w)%nat -> windows w [] = [].
Proof.
  intros Hw. unfold windows. simpl.
  by rewrite Nat.div_small by lia.
Qed.

Lemma windows_cons (w : nat) (a rest : BitArray) :
  (0 < w)%nat -> length a = w -> windows w (a ++ rest) = a :: windows w rest.
Proof.
  intros Hw Ha. unfold windows. rewrite length_app, Ha.
  replace (w + length rest + w - 1)%nat with (1 * w + (length rest + w - 1))%nat
    by lia.
  rewrite Nat.div_add_l by lia.
  cbn [Nat.add seq]. rewrite fmap_cons. f_equal.
  - unfold window. simpl. rewrite drop_0, take_app_length'; done.
  - rewrite <- fmap_S_seq, <- list_fmap_compose.
    apply list_fmap_ext. intros _ k _. unfold window; simpl.
    f_equal. replace (w + k * w)%nat with (length a + k * w)%nat by lia.
    by rewrite drop_app_add.
Qed.

Lemma windows_short (w : nat) (a : BitArray) :
  (0 < length a <= w)%nat -> windows w a = [a].
Proof.
  intros Ha. unfold windows.
  replace (Nat.div (length a + w - 1) w) with 1%nat.
  - simpl. unfold window. simpl. by rewrite drop_0, take_ge by lia.
  - apply (Nat.div_unique _ _ _ (length a - 1)); lia.
Qed.

Lemma byte_bits_length (x : byte) : length (byte_bits x) = 8%nat.
Proof. done. Qed.

Lemma bits_of_bytes_length (bs : list byte) :
  len (bits_of_bytes bs) = 8 * Z.of_nat (length bs).
Proof.
  unfold len, bits_of_bytes. induction bs as [|x bs IH]; [done|].
  rewrite bind_cons, length_app, byte_bits_length, length_cons. lia.
Qed.

Lemma windows_8_bytes (bs : list byte) :
  windows 8 (bits_of_bytes bs) = byte_bits <$> bs.
Proof.
  induction bs as [|x bs IH]; [apply windows_nil; lia|].
  unfold bits_of_bytes. rewrite bind_cons, fmap_cons.
  rewrite windows_cons; [by f_equal | lia | done].
Qed.

Lemma windows_16_bytes (bs : list byte) :
  windows 16 (bits_of_bytes bs) = pair_bits bs.
Proof.
  induction bs as [|x|lo hi bs IH] using list_pair_ind.
  - apply windows_nil; lia.
  - unfold bits_of_bytes. rewrite bind_cons. cbn [pair_bits].
    change ([] ≫= byte_bits) with (@nil bool). rewrite app_nil_r.
    apply windows_short. rewrite byte_bits_length. lia.
  - unfold bits_of_bytes. rewrite !bind_cons, app_assoc. cbn [pair_bits].
    rewrite windows_cons; [by f_equal | lia |].
    by rewrite length_app, !byte_bits_length.
Qed.

Lemma uint_byte_bits (x : byte) : uint (byte_bits x) = byte_val x.
Proof. by destruct x. Qed.

Lemma to_bytes_bits (bs : list byte) :
  forall fuel : nat,
    (length bs <= fuel)%nat ->
    to_bytes fuel (bits_of_bytes bs) = byte_val <$> bs.
Proof.
  induction bs as [|x bs IH]; intros fuel Hf.
  - by destruct fuel.
  - destruct fuel as [|fuel]; [simpl in Hf; lia|].
    unfold bits_of_bytes. rewrite fmap_cons, bind_cons.
    unfold byte_bits at 1. cbn [app to_bytes firstn skipn].
    rewrite take_0, drop_0. fold (byte_bits x).
    rewrite uint_byte_bits. f_equal. apply IH. simpl in Hf; lia.
Qed.

(** the little-endian value of a run of bytes *)
Lemma uintle_val_bytes (bs : list byte) :
  uintle_val (bits_of_bytes bs) = le_value (byte_val <$> bs).
Proof.
  unfold uintle_val. rewrite to_bytes_bits; [done|].
  pose proof (bits_of_bytes_length bs) as Hl. unfold len in Hl. lia.
Qed.

Lemma uintle_val_byte (x : byte) : uintle_val (byte_bits x) = byte_val x.
Proof.
  replace (byte_bits x) with (bits_of_bytes [x])
    by (unfold bits_of_bytes; rewrite bind_cons; apply app_nil_r).
  rewrite uintle_val_bytes. simpl. lia.
Qed.

Lemma uintle_val_pair (lo hi : byte) :
  uintle_val (byte_bits lo ++ byte_bits hi) = byte_val lo + 256 * byte_val hi.
Proof.
  replace (byte_bits lo ++ byte_bits hi) with (bits_of_bytes [lo; hi])
    by (unfold bits_of_bytes; rewrite !bind_cons; by rewrite app_nil_r).
  rewrite uintle_val_bytes. simpl. lia.
Qed.

Lemma render_byte (signed : bool) (x : byte) :
  render 8 signed (byte_bits x) = format_int 3 (byte_int signed x).
Proof.
  unfold render, byte_int, intle_val, as_signed.
  rewrite uintle_val_byte. by destruct signed.
Qed.

Lemma render_odd_byte (signed : bool) (x : byte) :
  render 16 signed (byte_bits x) = format_int 5 (byte_int signed x).
Proof.
  unfold render, byte_int, intle_val, as_signed.
  rewrite uintle_val_byte. by destruct signed.
Qed.

Lemma render_pair (signed : bool) (lo hi : byte) :
  render 16 signed (byte_bits lo ++ byte_bits hi) =
  format_int 5 (let v := byte_val lo + 256 * byte_val hi in
                if signed then as_signed 16 v else v).
Proof.
  unfold render, intle_val, as_signed.
  rewrite uintle_val_pair. by destruct signed.
Qed.

Lemma hex_bits_byte (x : byte) :
  ((fun c => default 0%N (nibble_of c)) <$> hex_of_byte x) ≫= nibble_bits
  = byte_bits x.
Proof. by destruct x. Qed.

(** the bits of the hex text of bytes are the bits of the bytes *)
Lemma hex_bits_bytes_hex (bs : list byte) :
  hex_bits (bytes_hex bs) = bits_of_bytes bs.
Proof.
  unfold hex_bits, bits_of_bytes. rewrite bytes_hex_chars.
  induction bs as [|x bs IH]; [done|].
  rewrite !bind_cons, fmap_app, bind_app, IH. by rewrite hex_bits_byte.
Qed.

Lemma lower_hex_byte (x : byte) :
  forallb (fun c => bool_decide (is_Some (nibble_of c))
                    && bool_decide (hexdigit (default 0%N (nibble_of c)) = c))
          (hex_of_byte x) = true.
Proof. by destruct x. Qed.

Lemma bytes_hex_lower (bs : list byte) : lower_hex (bytes_hex bs).
Proof.
  unfold lower_hex. rewrite bytes_hex_chars.
  induction bs as [|x bs IH]; [done|].
  by rewrite bind_cons, forallb_app, lower_hex_byte, IH.
Qed.

Lemma hex_bits_of_bytes (bs : list byte) :
  hex (bits_of_bytes bs) = Ok (bytes_hex bs).
Proof.
  rewrite <- hex_bits_bytes_hex. apply hex_hex_bits, bytes_hex_lower.
Qed.

Lemma strbody_bytes (bs : list byte) :
  string_of_list_ascii
    (hexdigit <$> to_nibbles (length (bits_of_bytes bs)) (bits_of_bytes bs))
  = bytes_hex bs.
Proof.
  pose proof (hex_bits_of_bytes bs) as Hh. unfold hex in Hh.
  rewrite bits_of_bytes_length in Hh.
  replace (8 * Z.of_nat (length bs)) with (Z.of_nat (length bs) * 2 * 4) in Hh
    by lia.
  rewrite Z.mod_mul in Hh by lia. cbn [negb Z.eqb] in Hh. by injection Hh.
Qed.

Lemma bits_of_bytes_whole (bs : list byte) : len (bits_of_bytes bs) mod 8 = 0.
Proof. rewrite bits_of_bytes_length, Z.mul_comm. by apply Z.mod_mul. Qed.

(** X9: with width 8, [intdecoder] lists the bytes of the body one by one,
    each in three digits, as numbers from 0 to 255 or, signed, from -128
    to 127; the second field is the hex text of the bytes. *)
Theorem intdecoder_bytes (bs : list byte) (signed : bool) :
  intdecoder (bits_of_bytes bs) 8 signed =
  Ok [("ints"%string,
       VStr (String.concat " " (format_int 3 <$> (byte_int signed <$> bs))));
      ("strbody"%string, VStr (bytes_hex bs))].
Proof.
  rewrite intdecoder_whole_bytes; [|by left|apply bits_of_bytes_whole].
  change (Z.to_nat 8) with 8%nat.
  rewrite windows_8_bytes, strbody_bytes, <- !list_fmap_compose.
  assert (Hr : render 8 signed ∘ byte_bits <$> bs =
               format_int 3 ∘ byte_int signed <$> bs)
    by (apply list_fmap_ext; intros _ x _; apply render_byte).
  by rewrite Hr.
Qed.

Lemma render_pair_bits (signed : bool) (bs : list byte) :
  render 16 signed <$> pair_bits bs = format_int 5 <$> le_words signed bs.
Proof.
  induction bs as [|x|lo hi bs IH] using list_pair_ind; [done| |].
  - cbn [pair_bits le_words fmap list_fmap]. by rewrite render_odd_byte.
  - cbn [pair_bits le_words]. by rewrite !fmap_cons, IH, render_pair.
Qed.

(** X10: with width 16, [intdecoder] reads the bytes of the body in pairs,
    the first byte of a pair the less significant, each pair in five
    digits; a last byte without a partner is read on its own. *)
Theorem intdecoder_words (bs : list byte) (signed : bool) :
  intdecoder (bits_of_bytes bs) 16 signed =
  Ok [("ints"%string,
       VStr (String.concat " " (format_int 5 <$> le_words signed bs)));
      ("strbody"%string, VStr (bytes_hex bs))].
Proof.
  rewrite intdecoder_whole_bytes; [|by right|apply bits_of_bytes_whole].
  change (Z.to_nat 16) with 16%nat.
  by rewrite windows_16_bytes, strbody_bytes, render_pair_bits.
Qed.

Lemma take_bind_hex (k : nat) (bs : list byte) :
  take (2 * k) (bs ≫= hex_of_byte) = take k bs ≫= hex_of_byte.
Proof.
  revert bs. induction k as [|k IH]; intros bs; [done|].
  destruct bs as [|x bs]; [done|].
  replace (2 * S k)%nat with (S (S (2 * k))) by lia.
  rewrite bind_cons. unfold hex_of_byte at 1. cbn [app firstn].
  rewrite IH. by rewrite bind_cons.
Qed.

Lemma drop_bind_hex (k : nat) (bs : list byte) :
  drop (2 * k) (bs ≫= hex_of_byte) = drop k bs ≫= hex_of_byte.
Proof.
  revert bs. induction k as [|k IH]; intros bs; [done|].
  destruct bs as [|x bs]; [done|].
  replace (2 * S k)%nat with (S (S (2 * k))) by lia.
  rewrite bind_cons. unfold hex_of_byte at 1. cbn [app skipn].
  apply IH.
Qed.

Lemma bytes_hex_length (bs : list byte) :
  String.length (bytes_hex bs) = (2 * length bs)%nat.
Proof.
  rewrite <- chars_length, bytes_hex_chars.
  induction bs as [|x bs IH]; [done|].
  rewrite bind_cons, length_app, IH. simpl. lia.
Qed.

Lemma slice_body {A} (l : list A) :
  slice l (Some 3) (Some (-1)) = drop 3 (take (length l - 1) l).
Proof.
  unfold slice, clamp_index; simpl.
  destruct (Z.le_gt_cases 4 (Z.of_nat (length l))).
  - rewrite Z.min_l, Z.max_r by lia.
    change (Z.to_nat 3) with 3%nat.
    rewrite take_drop_commute. do 2 f_equal. lia.
  - rewrite (drop_ge (take _ _)) by (rewrite length_take; lia).
    replace (Z.to_nat _) with 0%nat by lia. done.
Qed.

(** the hex text of a frame without its first six and last two characters
    is the hex text of [frame[3:-1]] *)
Lemma stripped_bytes_hex (frame : list byte) :
  stripped (bytes_hex frame) = bytes_hex (slice frame (Some 3) (Some (-1))).
Proof.
  unfold stripped. rewrite bytes_hex_length, bytes_hex_chars, slice_body.
  replace (2 * length frame - 2)%nat with (2 * (length frame - 1))%nat by lia.
  change 6%nat with (2 * 3)%nat.
  by rewrite take_bind_hex, drop_bind_hex.
Qed.

(** X8: from the hex text of a frame, [checklength] returns the bits of
    [frame[3:-1]], the bytes between the three-byte type and the last
    byte; [intdecoder] with width 8 or 16 then always returns, and its
    second field is the hex text of those bytes. *)
Theorem checklength_then_intdecoder
        (frame : list byte) (speclen : pyval) (bits : BitArray)
        (width : Z) (signed : bool) :
  checklength (VStr (bytes_hex frame)) speclen = Ok bits ->
  width = 8 \/ width = 16 ->
  let body := slice frame (Some 3) (Some (-1)) in
  bits = bits_of_bytes body
  /\ exists ints : string,
      intdecoder bits width signed =
      Ok [("ints"%string, VStr ints);
          ("strbody"%string, VStr (bytes_hex body))].
Proof.
  intros [_ Hr]%checklength_returns Hw body.
  rewrite stripped_bytes_hex in Hr. fold body in Hr.
  rewrite of_hex_ok in Hr by apply lower_hex_encoded, bytes_hex_lower.
  rewrite hex_bits_bytes_hex in Hr. injection Hr as <-.
  split; [done|]. eexists.
  rewrite intdecoder_whole_bytes; [|done|apply bits_of_bytes_whole].
  by rewrite strbody_bytes.
Qed.

Lemma checklength_then_intdecoder_witness :
  (checklength (VStr (bytes_hex gpstime_frame)) VNone
   = Ok (hex_bits (stripped gpstime_pdu))
   /\ (16 = 8 \/ 16 = 16))
  /\ hex_bits (stripped gpstime_pdu)
     = bits_of_bytes (slice gpstime_frame (Some 3) (Some (-1)))
  /\ exists ints : string,
      intdecoder (hex_bits (stripped gpstime_pdu)) 16 true =
      Ok [("ints"%string, VStr ints);
          ("strbody"%string,
           VStr (bytes_hex (slice gpstime_frame (Some 3) (Some (-1)))))].
Proof.
  split; [split; [reflexivity | by right]|].
  apply (checklength_then_intdecoder gpstime_frame VNone
           (hex_bits (stripped gpstime_pdu)) 16 true);
    [reflexivity | by right].
Defined.

Lemma py_for_app {S A} (body : S -> A -> result S) (l1 l2 : list A) (s : S) :
  py_for body (l1 ++ l2) s = py_for body l1 s ≫= py_for body l2.
Proof.
  revert s. induction l1 as [|x l1 IH]; intros s; [done|].
  cbn [app py_for]. destruct (body s x) as [s'|e]; [apply IH | done].
Qed.

(** the loop of [intdecoder] over windows that are whole bytes *)
Lemma intdecoder_loop_ok (body : BitArray) (width : Z) (signed : bool)
      (ks : list nat) :
  0 <= width ->
  Forall (fun k => len (window (Z.to_nat width) body k) mod 8 = 0
                   /\ 0 < len (window (Z.to_nat width) body k)) ks ->
  forall acc : list string,
    py_for (fun (s : list string) idx =>
              n ← (if signed
                   then intle (slice body (Some idx) (Some (idx + width)))
                   else uintle (slice body (Some idx) (Some (idx + width))));
              Ok (s ++ [(if width =? 16 then format_int 5 else format_int 3) n]))
           ((fun k => 0 + Z.of_nat k * width) <$> ks) acc =
    Ok (acc ++ (render width signed <$> (window (Z.to_nat width) body <$> ks))).
Proof.
  intros Hw Hks. induction Hks as [|k ks [Hm Hp] _ IH]; intros acc.
  - simpl. by rewrite app_nil_r.
  - rewrite !fmap_cons. cbn [py_for].
    rewrite slice_window by lia.
    replace (Z.to_nat (0 + Z.of_nat k * width)) with (k * Z.to_nat width)%nat
      by lia.
    fold (window (Z.to_nat width) body k).
    assert (Hn : (if signed then intle (window (Z.to_nat width) body k)
                  else uintle (window (Z.to_nat width) body k)) =
                 Ok (if signed then intle_val (window (Z.to_nat width) body k)
                     else uintle_val (window (Z.to_nat width) body k))).
    { destruct signed;
        [by apply intle_whole_bytes | by apply uintle_whole_bytes]. }
    rewrite Hn. cbn [mbind result_bind]. rewrite IH.
    unfold render. by rewrite <- app_assoc.
Qed.

(** the turn of the loop at a window that is not whole bytes *)
Lemma intdecoder_loop_ragged (body : BitArray) (width : Z) (signed : bool)
      (k : nat) (acc : list string) :
  0 <= width ->
  len (window (Z.to_nat width) body k) mod 8 <> 0 ->
  py_for (fun (s : list string) idx =>
            n ← (if signed
                 then intle (slice body (Some idx) (Some (idx + width)))
                 else uintle (slice body (Some idx) (Some (idx + width))));
            Ok (s ++ [(if width =? 16 then format_int 5 else format_int 3) n]))
         [0 + Z.of_nat k * width] acc = Raise InterpretError.
Proof.
  intros Hw Hm. cbn [py_for]. rewrite slice_window by lia.
  replace (Z.to_nat (0 + Z.of_nat k * width)) with (k * Z.to_nat width)%nat
    by lia.
  fold (window (Z.to_nat width) body k).
  assert (Hu : uintle (window (Z.to_nat width) body k) = Raise InterpretError).
  { unfold uintle. by destruct (Z.eqb_spec (len (window (Z.to_nat width) body k) mod 8) 0). }
  unfold intle. rewrite Hu. by destruct signed.
Qed.

Lemma intdecoder_ragged (body : BitArray) (width : Z) (signed : bool) :
  width = 8 \/ width = 16 -> len body mod 8 <> 0 ->
  intdecoder body width signed = Raise InterpretError.
Proof.
  intros Hw Hb. unfold intdecoder.
  replace (width mod 8 =? 0) with true by (by destruct Hw as [-> | ->]).
  rewrite bool_decide_eq_true_2 by (rewrite !elem_of_cons; tauto).
  cbn [py_assert mbind result_bind].
  rewrite py_range_up by lia. cbn [mbind result_bind].
  unfold len at 1. set (w := Z.to_nat width).
  replace ((Z.of_nat (length body) - 0 + width - 1) / width)
    with ((Z.of_nat (length body) - 0 + Z.of_nat w - 1) / Z.of_nat w)
    by (subst w; by rewrite Z2Nat.id by lia).
  rewrite window_count by lia.
  set (n := Nat.div (length body + w - 1) w).
  assert (Hpos : (0 < length body)%nat).
  { destruct body; [done | simpl; lia]. }
  assert (Hlast : forall k, (k < n)%nat <-> (k * w < length body)%nat)
    by (intros k; apply window_count_spec; lia).
  assert (Hn : (0 < n)%nat) by (apply Hlast; lia).
  replace n with (S (n - 1)) by lia. rewrite seq_S, fmap_app, py_for_app.
  rewrite intdecoder_loop_ok; [| lia |].
  - cbn [mbind result_bind fmap list_fmap Nat.add].
    rewrite intdecoder_loop_ragged; [done | lia |].
    fold w. unfold len in *. rewrite window_length.
    assert (Hk : ((n - 1) * w < length body)%nat) by (apply Hlast; lia).
    assert (Hk' : ~ (n * w < length body)%nat) by (rewrite <- Hlast; lia).
    rewrite Nat.min_r by nia.
    replace (Z.of_nat (length body - (n - 1) * w))
      with (Z.of_nat (length body) + (- (Z.of_nat (n - 1) * (Z.of_nat w / 8))) * 8).
    + by rewrite Z.mod_add by lia.
    + assert (Z.of_nat w / 8 * 8 = Z.of_nat w)
        by (subst w; by destruct Hw as [-> | ->]).
      nia.
  - apply Forall_forall. intros k Hk%elem_of_seq. fold w.
    assert (Hk1 : ((n - 1) * w < length body)%nat) by (apply Hlast; lia).
    unfold len. rewrite window_length, Nat.min_l by nia.
    subst w. by destruct Hw as [-> | ->].
Qed.

(** X7: with width 8 or 16, [intdecoder] returns exactly for the bodies
    that are a whole number of bytes; for every other body the last window
    is not whole bytes and the call raises [bitstring.InterpretError]. *)
Theorem intdecoder_returns_iff (body : BitArray) (width : Z) (signed : bool) :
  width = 8 \/ width = 16 ->
  ((exists r, intdecoder body width signed = Ok r) <-> len body mod 8 = 0)
  /\ (len body mod 8 <> 0 ->
      intdecoder body width signed = Raise InterpretError).
Proof.
  intros Hw. split; [|by apply intdecoder_ragged].
  split.
  - intros [r Hr]. destruct (Z.eq_dec (len body mod 8) 0) as [|Hne]; [done|].
    by rewrite intdecoder_ragged in Hr.
  - intros Hb. rewrite intdecoder_whole_bytes by done. by eexists.
Qed.

Lemma intdecoder_returns_iff_witness :
  (16 = 8 \/ 16 = 16)
  /\ ((exists r, intdecoder half_byte 16 true = Ok r) <-> len half_byte mod 8 = 0)
  /\ (len half_byte mod 8 <> 0 ->
      intdecoder half_byte 16 true = Raise InterpretError).
Proof.
  split; [by right|].
  apply (intdecoder_returns_iff half_byte 16 true). by right.
Defined.

Lemma uint_fold_range (bs : list bool) :
  forall acc : Z,
    0 <= acc ->
    acc * 2 ^ Z.of_nat (length bs)
    <= fold_left (fun a (b : bool) => 2 * a + (if b then 1 else 0)) bs acc
    < (acc + 1) * 2 ^ Z.of_nat (length bs).
Proof.
  induction bs as [|b bs IH]; intros acc Hacc; [simpl; lia|].
  cbn [fold_left length]. rewrite Nat2Z.inj_succ, Z.pow_succ_r by lia.
  specialize (IH (2 * acc + (if b then 1 else 0))).
  destruct b; nia.
Qed.

Lemma uint_range (bs : list bool) : 0 <= uint bs < 2 ^ Z.of_nat (length bs).
Proof. unfold uint. pose proof (uint_fold_range bs 0). lia. Qed.

Lemma uint_take_8 (bs : list bool) : 0 <= uint (take 8 bs) < 256.
Proof.
  pose proof (uint_range (take 8 bs)) as Hr.
  assert (2 ^ Z.of_nat (length (take 8 bs)) <= 2 ^ 8)
    by (apply Z.pow_le_mono_r; [lia | rewrite length_take; lia]).
  lia.
Qed.

(** the little-endian value of [m] bytes is below 256 to the [m] *)
Lemma le_value_range (m : nat) :
  forall (fuel : nat) (bs : list bool),
    length bs = (8 * m)%nat ->
    0 <= le_value (to_bytes fuel bs) < 2 ^ Z.of_nat (8 * m).
Proof.
  induction m as [|m IH]; intros fuel bs Hlen.
  - destruct bs; [|done]. destruct fuel; simpl; lia.
  - destruct fuel as [|fuel]; [simpl; lia|].
    destruct bs as [|b bs]; [done|]. cbn [to_bytes le_value foldr].
    pose proof (uint_take_8 (b :: bs)) as Hx.
    specialize (IH fuel (drop 8 (b :: bs))).
    rewrite length_drop, Hlen in IH.
    replace (Z.of_nat (8 * S m)) with (Z.of_nat (8 * m) + 8) by lia.
    rewrite Z.pow_add_r by lia. change (2 ^ 8) with 256.
    fold (le_value (to_bytes fuel (drop 8 (b :: bs)))).
    assert (8 * S m - 8 = 8 * m)%nat as Hm by lia. specialize (IH Hm). nia.
Qed.

Lemma window_values (win : BitArray) (width : Z) :
  (len win = 8 \/ len win = 16) -> len win <= width ->
  (0 <= uintle_val win < 2 ^ width)
  /\ (- 2 ^ (width - 1) <= intle_val win < 2 ^ (width - 1)).
Proof.
  intros Hl Hw. unfold len in *.
  assert (Hu : 0 <= uintle_val win < 2 ^ Z.of_nat (length win)).
  { unfold uintle_val.
    destruct Hl as [Hl|Hl].
    - replace (Z.of_nat (length win)) with (Z.of_nat (8 * 1)) by lia.
      apply (le_value_range 1). lia.
    - replace (Z.of_nat (length win)) with (Z.of_nat (8 * 2)) by lia.
      apply (le_value_range 2). lia. }
  assert (Hp : 2 ^ Z.of_nat (length win) <= 2 ^ width)
    by (apply Z.pow_le_mono_r; lia).
  assert (Hq : 2 ^ (Z.of_nat (length win) - 1) <= 2 ^ (width - 1))
    by (apply Z.pow_le_mono_r; lia).
  assert (Hd : 2 ^ Z.of_nat (length win) = 2 * 2 ^ (Z.of_nat (length win) - 1)).
  { rewrite <- Z.pow_succ_r by lia. f_equal. lia. }
  split; [lia|]. unfold intle_val, len.
  destruct (Z.leb_spec (2 ^ (Z.of_nat (length win) - 1)) (uintle_val win)); lia.
Qed.

Lemma windows_Forall_len (w : nat) (body : BitArray) :
  (w = 8 \/ w = 16)%nat -> len body mod 8 = 0 ->
  Forall (fun win => (len win = 8 \/ len win = 16) /\ len win <= Z.of_nat w)
         (windows w body).
Proof.
  intros Hw Hb. apply Forall_lookup. intros k win Hk.
  destruct (windows_widths w body k win Hw Hb Hk) as [Hl|(_ & -> & Hl)];
    unfold len; rewrite Hl; lia.
Qed.

(** X11: every number that [intdecoder] renders for a body of whole bytes
    lies in the range of the width: from 0 to 2^width - 1 unsigned, from
    -2^(width-1) to 2^(width-1) - 1 signed. *)
Theorem intdecoder_value_ranges (body : BitArray) (width : Z) (signed : bool) :
  width = 8 \/ width = 16 -> len body mod 8 = 0 ->
  exists (vals : list Z) (strbody : string),
    intdecoder body width signed =
    Ok [("ints"%string,
         VStr (String.concat " "
                 ((if width =? 16 then format_int 5 else format_int 3) <$> vals)));
        ("strbody"%string, VStr strbody)]
    /\ Forall (fun v => if signed
                        then - 2 ^ (width - 1) <= v < 2 ^ (width - 1)
                        else 0 <= v < 2 ^ width) vals.
Proof.
  intros Hw Hb.
  exists ((fun win => if signed then intle_val win else uintle_val win)
            <$> windows (Z.to_nat width) body).
  eexists. split.
  - rewrite intdecoder_whole_bytes by done.
    rewrite <- list_fmap_compose. reflexivity.
  - apply Forall_fmap.
    eapply Forall_impl; [apply (windows_Forall_len (Z.to_nat width)); [lia|done]|].
    intros win [Hl Hle]. cbn beta.
    destruct (window_values win width Hl) as [Hu Hs]; [lia|].
    by destruct signed.
Qed.

Lemma intdecoder_value_ranges_witness :
  ((16 = 8 \/ 16 = 16) /\ len cogsog_body mod 8 = 0)
  /\ exists (vals : list Z) (strbody : string),
      intdecoder cogsog_body 16 true =
      Ok [("ints"%string,
           VStr (String.concat " "
                   ((if 16 =? 16 then format_int 5 else format_int 3) <$> vals)));
          ("strbody"%string, VStr strbody)]
      /\ Forall (fun v => if true
                          then - 2 ^ (16 - 1) <= v < 2 ^ (16 - 1)
                          else 0 <= v < 2 ^ 16) vals.
Proof.
  split; [split; [by right | reflexivity]|].
  apply (intdecoder_value_ranges cogsog_body 16 true); [by right | reflexivity].
Defined.

Lemma format_int_3_length (v : Z) :
  0 <= v < 256 -> String.length (format_int 3 v) = 3%nat.
Proof.
  intros Hv.
  assert (Hall : forallb (fun k => Nat.eqb (String.length (format_int 3 (Z.of_nat k))) 3)
                         (seq 0 256) = true) by (vm_compute; reflexivity).
  rewrite forallb_forall in Hall.
  specialize (Hall (Z.to_nat v)). rewrite Z2Nat.id in Hall by lia.
  apply Nat.eqb_eq, Hall, in_seq. lia.
Qed.

Lemma format_int_5_length (v : Z) :
  0 <= v < 65536 -> String.length (format_int 5 v) = 5%nat.
Proof.
  intros Hv.
  assert (Hall : forallb (fun hi =>
                   forallb (fun lo =>
                     Nat.eqb (String.length
                                (format_int 5 (Z.of_nat lo + 256 * Z.of_nat hi))) 5)
                           (seq 0 256))
                         (seq 0 256) = true) by (vm_compute; reflexivity).
  rewrite forallb_forall in Hall.
  specialize (Hall (Z.to_nat (v / 256))). rewrite forallb_forall in Hall.
  assert (Hhi : 0 <= v / 256 < 256)
    by (split; [apply Z.div_pos | apply Z.div_lt_upper_bound]; lia).
  assert (Hlo : 0 <= v mod 256 < 256) by (apply Z.mod_pos_bound; lia).
  specialize (Hall ltac:(apply in_seq; lia) (Z.to_nat (v mod 256))
                   ltac:(apply in_seq; lia)).
  rewrite !Z2Nat.id in Hall by lia.
  replace (v mod 256 + 256 * (v / 256)) with v in Hall
    by (pose proof (Z.div_mod v 256); lia).
  by apply Nat.eqb_eq.
Qed.

(** X12: read unsigned, a body of whole bytes gives one text for each
    window, and every text has exactly three characters with width 8 and
    five with width 16, so that a number is found in the field by its
    position. *)
Theorem intdecoder_unsigned_fixed_width (body : BitArray) (width : Z) :
  width = 8 \/ width = 16 -> len body mod 8 = 0 ->
  exists (texts : list string) (strbody : string),
    intdecoder body width false =
    Ok [("ints"%string, VStr (String.concat " " texts));
        ("strbody"%string, VStr strbody)]
    /\ length texts = Nat.div (length body + Z.to_nat width - 1) (Z.to_nat width)
    /\ Forall (fun t => String.length t = if width =? 16 then 5%nat else 3%nat)
              texts.
Proof.
  intros Hw Hb.
  exists (render width false <$> windows (Z.to_nat width) body).
  eexists. split; [by rewrite intdecoder_whole_bytes|].
  split; [by rewrite length_fmap, windows_length|].
  apply Forall_fmap.
  eapply Forall_impl; [apply (windows_Forall_len (Z.to_nat width)); [lia|done]|].
  intros win [Hl Hle]. cbn beta. unfold render.
  destruct (window_values win width Hl) as [Hu _]; [lia|].
  destruct Hw as [-> | ->]; cbn [Z.eqb Pos.eqb].
  - apply format_int_3_length. change (2 ^ 8) with 256 in Hu. lia.
  - apply format_int_5_length. change (2 ^ 16) with 65536 in Hu. lia.
Qed.

Lemma intdecoder_unsigned_fixed_width_witness :
  ((16 = 8 \/ 16 = 16) /\ len cogsog_body mod 8 = 0)
  /\ exists (texts : list string) (strbody : string),
      intdecoder cogsog_body 16 false =
      Ok [("ints"%string, VStr (String.concat " " texts));
          ("strbody"%string, VStr strbody)]
      /\ length texts
         = Nat.div (length cogsog_body + Z.to_nat 16 - 1) (Z.to_nat 16)
      /\ Forall (fun t => String.length t = if 16 =? 16 then 5%nat else 3%nat)
                texts.
Proof.
  split; [split; [by right | reflexivity]|].
  apply (intdecoder_unsigned_fixed_width cogsog_body 16);
    [by right | reflexivity].
Defined.

(** ** More on decode_frame *)

(** with the module's globals, what [decode_frame] does with a frame of
    four bytes or more depends on the registry only through whether the
    type has an entry *)
Lemma decode_frame_module (H : gmap (list byte) handler) (fr : list byte) :
  4 <= bytes_len fr ->
  decode_frame module_globals H (VBytes fr) =
  match H !! hexlify (take 3 fr) with
  | Some _ => ([frame_line fr], Raise (NameError "message"))
  | None =>
    ([frame_line fr;
      EWarning (IText "No handler for %i byte 0x%s"
                      [VInt (bytes_len fr); VBytes (hexlify (take 3 fr))])],
     Ok None)
  end.
Proof.
  intros Hlen. rewrite decode_frame_lookup by done. unfold handler in *.
  destruct (H !! hexlify (take 3 fr)) as [h|]; [|done].
  cbn -[load_global module_globals]. by rewrite message_unbound.
Qed.

Lemma decode_frame_not_short (G : gmap string pyval)
      (H : gmap (list byte) handler) (fr : list byte) :
  bytes_len fr < 4 ->
  decode_frame G H (VBytes fr) =
  ([], Raise (DataError
                (IText "short message <4 bytes: %s" [VStr (bytes_hex fr)]))).
Proof.
  intros Hlen. unfold decode_frame.
  destruct (Z.ltb_spec (bytes_len fr) 4); [done | lia].
Qed.



(** X14: whatever the registry and the frame, [decode_frame] ends in one
    of four ways: an assertion failure (the frame is not bytes), the
    short-message DataError, None, or NameError on [message]; it never
    returns decoded fields. *)
Theorem decode_frame_outcomes (H : gmap (list byte) handler) (frame : pyval) :
  let r := (decode_frame module_globals H frame).2 in
  (r = Raise AssertionError
   \/ (exists m, r = Raise (DataError m))
   \/ r = Ok None
   \/ r = Raise (NameError "message"))
  /\ forall d, r <> Ok (Some d).
Proof.
  assert (Hc : let r := (decode_frame module_globals H frame).2 in
               r = Raise AssertionError
               \/ (exists m, r = Raise (DataError m))
               \/ r = Ok None
               \/ r = Raise (NameError "message")).
  { destruct frame as [| | | | |fr| | |]; try (by left).
    destruct (Z.lt_ge_cases (bytes_len fr) 4) as [Hs|Hl].
    - cbn zeta. rewrite decode_frame_not_short by done. right; left. by eexists.
    - cbn zeta. rewrite decode_frame_module by done. unfold handler in *.
      destruct (H !! hexlify (take 3 fr)).
      + by right; right; right.
      + by right; right; left. }
  split; [exact Hc|]. cbn zeta in *. intros d Hd. rewrite Hd in Hc.
  by destruct Hc as [?|[[m ?]|[?|?]]].
Qed.

Lemma hex_of_byte_key (x : byte) :
  forallb (fun b => let n := Byte.to_N b in
                    ((48 <=? n) && (n <=? 57) || (97 <=? n) && (n <=? 102))%N)
          (byte_of_ascii <$> hex_of_byte x) = true.
Proof. by destruct x. Qed.

(** the key [hexlify(frame[:3])] of a frame of three bytes or more *)
Lemma hexlify_type_key (fr : list byte) :
  3 <= bytes_len fr -> hex_key (hexlify (take 3 fr)) = true.
Proof.
  unfold bytes_len. intros Hlen.
  destruct fr as [|a [|b [|c fr]]]; try (simpl in Hlen; lia).
  unfold hex_key, hexlify. cbn [firstn]. rewrite !bind_cons.
  change ([] ≫= hex_of_byte) with (@nil ascii). rewrite app_nil_r.
  rewrite !fmap_app, !forallb_app, !hex_of_byte_key. done.
Qed.

(** X15: the registry is looked up under six lower-case hex digits, as
    bytes; a registry none of whose keys has that shape has no handler for
    any frame: every frame of four bytes or more gives None. *)
Theorem decode_frame_key_shape (G : gmap string pyval)
        (H : gmap (list byte) handler) (fr : list byte) :
  4 <= bytes_len fr ->
  (forall k, is_Some (H !! k) -> hex_key k = false) ->
  decode_frame G H (VBytes fr) =
  ([frame_line fr;
    EWarning (IText "No handler for %i byte 0x%s"
                    [VInt (bytes_len fr); VBytes (hexlify (take 3 fr))])],
   Ok None).
Proof.
  intros Hlen Hkeys. rewrite decode_frame_lookup by done.
  specialize (Hkeys (hexlify (take 3 fr))). unfold handler in *.
  destruct (H !! hexlify (take 3 fr)) as [h|]; [|done].
  rewrite hexlify_type_key in Hkeys by lia.
  by specialize (Hkeys ltac:(eauto)).
Qed.

Lemma decode_frame_key_shape_witness :
  (4 <= bytes_len gpstime_frame
   /\ forall k, is_Some (raw_registry !! k) -> hex_key k = false)
  /\ decode_frame module_globals raw_registry (VBytes gpstime_frame) =
     ([frame_line gpstime_frame;
       EWarning (IText "No handler for %i byte 0x%s"
                       [VInt (bytes_len gpstime_frame);
                        VBytes (hexlify (take 3 gpstime_frame))])],
      Ok None).
Proof.
  assert (Hk : forall k, is_Some (raw_registry !! k) -> hex_key k = false).
  { intros k [h Hh]. unfold raw_registry, handler in Hh.
    apply lookup_singleton_Some in Hh as [<- _]. reflexivity. }
  split; [split; [vm_compute; discriminate | exact Hk]|].
  apply (decode_frame_key_shape module_globals raw_registry gpstime_frame).
  - vm_compute; discriminate.
  - exact Hk.
Defined.

(** ** More on lineprotocol *)




(** X17: binding [headers] the way the class attribute is written, a list
    of pairs of an int and a length, does not let the loop scan: the first
    turn adds the str ["\x81"] to the int and ends with TypeError, for
    every byte source. *)
Theorem lineprotocol_int_headers
        (G : gmap string pyval) (h : Z) (n : pyval) (rest : list pyval)
        (reader : list (list byte)) (fuel : nat) :
  G !! "headers"%string = Some (VList (VTuple [VInt h; n] :: rest)) ->
  lineprotocol G reader (S fuel) = (printed (read reader).1, Raised TypeError).
Proof.
  intros HG. unfold lineprotocol. cbn [lineprotocol_loop].
  destruct (read reader) as [chunk reader']. cbn [fst app].
  unfold lineprotocol_pass, load_global. rewrite HG.
  cbn -[hexlify]. done.
Qed.

Lemma lineprotocol_int_headers_witness :
  globals_with_headers !! "headers"%string
  = Some (VList (VTuple [VInt 0x010402; VInt 6]
                 :: [VTuple [VInt 0x010106; VInt 10]]))
  /\ lineprotocol globals_with_headers [wire_frame] 1
     = (printed (read [wire_frame]).1, Raised TypeError).
Proof.
  split; [reflexivity|].
  apply (lineprotocol_int_headers globals_with_headers 0x010402 (VInt 6)
           [VTuple [VInt 0x010106; VInt 10]] [wire_frame] 0).
  reflexivity.
Defined.
